(** * Engineered landfill simulation: field generation and frame assembly

    A shallow embedding of [app5.py].  The script reads three inputs from
    the sidebar, evaluates two closed-form expressions over a fixed
    (distance x time) grid with numpy, and slices the two resulting arrays
    into a list of animation frames.

    Numbers: numpy computes on IEEE binary64 values.  This development
    reads every float as the real number it denotes and every numpy
    operation as the exact real operation (the type [R] of the Standard
    Library), so the results below are statements about the formulas of the
    script in exact arithmetic; rounding is not modelled.  One consequence
    matters for the leachate field: [exp] is never 0 over [R], while the
    binary64 [exp] returns 0.0 below an exponent of about -745, which the
    Gaussian factor reaches for large velocities and late times.  The
    statements about leachate entries therefore use the lower bound
    [0 <= e], and state a strict order between two leachate entries only
    where the exponent of the Gaussian factor is at least -700.

    Arrays: a one-dimensional array is a [list R], a two-dimensional array
    is a list of rows.  Indexing that raises [IndexError] in Python returns
    [None] here. *)

From Stdlib Require Import Reals Lra Lia List Arith ZArith String Bool.
Import ListNotations.

Local Open Scope R_scope.

(** ** The numpy operations the script uses *)

Module Np.

Definition ndarray1 : Type := list R.
Definition ndarray2 : Type := list (list R).

(** [a[i]] *)
Definition get1 (a : ndarray1) (i : nat) : option R := nth_error a i.

(** [A[i, j]] *)
Definition get2 (A : ndarray2) (i j : nat) : option R :=
  match nth_error A i with
  | Some row => nth_error row j
  | None => None
  end.

(** Replace the last element of a list (numpy's [y[-1] = stop]). *)
Fixpoint set_last (a : ndarray1) (v : R) : ndarray1 :=
  match a with
  | [] => []
  | [_] => [v]
  | e :: rest => e :: set_last rest v
  end.

(** [np.linspace(start, stop, num)] with the default [endpoint=True]:
    [step = (stop - start) / (num - 1)], the samples are
    [arange(0, num) * step + start], and for [num > 1] the last sample
    is overwritten with [stop]. *)
Definition linspace (start stop : R) (num : nat) : ndarray1 :=
  let div := (num - 1)%nat in
  let step := (stop - start) / INR div in
  let y := map (fun n => INR n * step + start) (seq 0 num) in
  if (1 <? num)%nat then set_last y stop else y.

(** [np.meshgrid(x, t)] with the default [indexing='xy']: both results
    have [len(t)] rows and [len(x)] columns; the first repeats [x] on
    every row, the second holds [t[i]] all along row [i]. *)
Definition meshgrid (xs ts : ndarray1) : ndarray2 * ndarray2 :=
  (map (fun _ => xs) ts, map (fun tv => map (fun _ => tv) xs) ts).

(** Element-wise application of a unary operation (this is also how a
    scalar is broadcast against an array: [c * A] is [ufunc (Rmult c) A]). *)
Definition ufunc (f : R -> R) (A : ndarray2) : ndarray2 := map (map f) A.

Fixpoint zip_with {A B C : Type} (f : A -> B -> C)
         (l1 : list A) (l2 : list B) : list C :=
  match l1, l2 with
  | a :: l1', b :: l2' => f a b :: zip_with f l1' l2'
  | _, _ => []
  end.

(** Element-wise application of a binary operation to two arrays of the
    same shape. *)
Definition ufunc2 (f : R -> R -> R) (A B : ndarray2) : ndarray2 :=
  zip_with (zip_with f) A B.

(** [A[:i, :]]: the first [i] rows (fewer when [A] is shorter). *)
Definition rows_upto (i : nat) (A : ndarray2) : ndarray2 := firstn i A.

End Np.

(** ** Python's [range(start, stop, step)] for a positive step *)

Fixpoint range_from (fuel i stop step : nat) : list nat :=
  match fuel with
  | O => []
  | S fuel' =>
      if (i <? stop)%nat then i :: range_from fuel' (i + step) stop step
      else []
  end.

Definition range (start stop step : nat) : list nat :=
  range_from (stop - start) start stop step.

(** ** The script *)

Module App.

Import Np.

(** *** Sidebar inputs

    [velocity_leachate] (slider, 0.1 to 10.0), [diffusion_gas] (slider,
    0.01 to 2.0) and [liner_type] (one of three option strings) are the
    parameters of the definitions below. *)

Definition liner_options : list string :=
  ["Clay (1e-7 m/s)"; "Geomembrane (1e-9 m/s)"; "Composite (1e-10 m/s)"]%string.

Definition liner_values : list (string * R) :=
  [("Clay (1e-7 m/s)"%string, 1e-7);
   ("Geomembrane (1e-9 m/s)"%string, 1e-9);
   ("Composite (1e-10 m/s)"%string, 1e-10)].

(** [d[key]]; [None] stands for [KeyError]. *)
Fixpoint dict_get (d : list (string * R)) (key : string) : option R :=
  match d with
  | [] => None
  | (key', v) :: d' => if String.eqb key key' then Some v else dict_get d' key
  end.

Definition k (liner_type : string) : option R := dict_get liner_values liner_type.

Definition velocity_in_range (v : R) : Prop := 0.1 <= v <= 10.
Definition diffusion_in_range (d : R) : Prop := 0.01 <= d <= 2.
Definition liner_in_range (kv : R) : Prop := kv = 1e-7 \/ kv = 1e-9 \/ kv = 1e-10.

(** *** Simulation domain *)

Definition x : ndarray1 := linspace 0 5 50.
Definition t : ndarray1 := linspace 0.1 40 80.
Definition X : ndarray2 := fst (meshgrid x t).
Definition T : ndarray2 := snd (meshgrid x t).

(** *** The two fields

    [np.exp(-((X - v * T) ** 2) / (4 * T)) * np.exp(-k * 10)], written over
    arbitrary mesh arrays [XX], [TT]; Python reads [-(A ** 2) / B] as
    [(-(A ** 2)) / B] and [-k * 10] as [(-k) * 10]. *)
Definition leachate_field (velocity_leachate kv : R) (XX TT : ndarray2) : ndarray2 :=
  ufunc (fun e => e * exp (- kv * 10))
    (ufunc exp
       (ufunc2 Rdiv
          (ufunc Ropp
             (ufunc (fun e => e ^ 2)
                (ufunc2 Rminus XX (ufunc (Rmult velocity_leachate) TT))))
          (ufunc (Rmult 4) TT))).

(** [np.exp(-d * T / 10) * np.cos(np.pi * X / 20) ** 2]; [**] binds tighter
    than [*]. *)
Definition gas_field (diffusion_gas : R) (XX TT : ndarray2) : ndarray2 :=
  ufunc2 Rmult
    (ufunc exp (ufunc (fun e => e / 10) (ufunc (Rmult (- diffusion_gas)) TT)))
    (ufunc (fun e => e ^ 2)
       (ufunc cos (ufunc (fun e => e / 20) (ufunc (Rmult PI) XX)))).

Definition C_leachate (velocity_leachate kv : R) : ndarray2 :=
  leachate_field velocity_leachate kv X T.

Definition C_gas (diffusion_gas : R) : ndarray2 :=
  gas_field diffusion_gas X T.

(** The value the two array expressions compute at one grid point. *)
Definition leachate_at (v kv xv tv : R) : R :=
  exp (- ((xv - v * tv) ^ 2) / (4 * tv)) * exp (- kv * 10).

Definition gas_at (d xv tv : R) : R :=
  exp (- d * tv / 10) * cos (PI * xv / 20) ^ 2.

(** *** Animation frames *)

Record Heatmap : Type := mkHeatmap {
  z : ndarray2;
  colorscale : string;
  zmin : R;
  zmax : R;
  opacity : option R;
  showscale : bool
}.

(** The frame label [f"t = {round(t[i], 1)} days"]; the model keeps the
    grid time the text is formatted from. *)
Inductive Label : Type :=
| DaysLabel (tv : R).

Record Frame : Type := mkFrame {
  data : list Heatmap;
  name : Label
}.

(** The body of the loop for one index [i]; [t[i]] may raise. *)
Definition frame_at (L G : ndarray2) (ts : ndarray1) (i : nat) : option Frame :=
  match get1 ts i with
  | Some ti =>
      Some (mkFrame
              [mkHeatmap (rows_upto i L) "Blues" 0 1 None false;
               mkHeatmap (rows_upto i G) "Oranges" 0 1 (Some 0.4) false]
              (DaysLabel ti))
  | None => None
  end.

(** [for i in idxs: frames.append(...)], starting from the list [acc]. *)
Fixpoint append_frames (L G : ndarray2) (ts : ndarray1)
         (idxs : list nat) (acc : list Frame) : option (list Frame) :=
  match idxs with
  | [] => Some acc
  | i :: rest =>
      match frame_at L G ts i with
      | Some f => append_frames L G ts rest (acc ++ [f])
      | None => None
      end
  end.

Definition build_frames (L G : ndarray2) (ts : ndarray1) : option (list Frame) :=
  append_frames L G ts (range 1 (List.length ts) 2) [].

Definition frames (velocity_leachate diffusion_gas kv : R) : option (list Frame) :=
  build_frames (C_leachate velocity_leachate kv) (C_gas diffusion_gas) t.

(** Number of rows of the two slices of a frame. *)
Definition row_counts (f : Frame) : list nat :=
  map (fun h => List.length (z h)) (data f).

Definition leachate_slice (f : Frame) : ndarray2 :=
  match data f with
  | h :: _ => z h
  | [] => []
  end.

Definition gas_slice (f : Frame) : ndarray2 :=
  match data f with
  | _ :: h :: _ => z h
  | _ => []
  end.

(** [p] is a prefix of [l]. *)
Definition prefix_of {A : Type} (p l : list A) : Prop := exists s, l = p ++ s.

End App.

(** The frame the loop body builds at index [i] when [t[i]] exists. *)
Definition frame_of (L G : Np.ndarray2) (ts : Np.ndarray1) (i : nat) : App.Frame :=
  App.mkFrame
    [App.mkHeatmap (Np.rows_upto i L) "Blues" 0 1 None false;
     App.mkHeatmap (Np.rows_upto i G) "Oranges" 0 1 (Some 0.4) false]
    (App.DaysLabel (nth i ts 0)).

(** [frames[n]] *)
Definition frame_k (v d kv : R) (n : nat) : option App.Frame :=
  match App.frames v d kv with
  | Some fs => nth_error fs n
  | None => None
  end.

(** ** The figure and the rest of the page *)

Module Page.

Import Np.

(** A trace of the initial figure: [go.Heatmap(z=..., colorscale=...,
    zmin=0, zmax=1, name=...)], with [opacity] only on the gas trace. *)
Record Trace : Type := mkTrace {
  trace_z : ndarray2;
  trace_colorscale : string;
  trace_zmin : R;
  trace_zmax : R;
  trace_opacity : option R;
  trace_name : string
}.

(** [go.Figure(data=[...], layout=layout, frames=frames)].  The layout is a
    constant of the script (titles, margins, the Play and Pause buttons)
    and is not part of the record. *)
Record Figure : Type := mkFigure {
  fig_data : list Trace;
  fig_frames : list App.Frame
}.

(** The initial traces show [C_leachate[:1, :]] and [C_gas[:1, :]]. *)
Definition initial_data (L G : ndarray2) : list Trace :=
  [mkTrace (rows_upto 1 L) "Blues" 0 1 None "Leachate";
   mkTrace (rows_upto 1 G) "Oranges" 0 1 (Some 0.4) "Gas"].

Definition fig (velocity_leachate diffusion_gas kv : R) : option Figure :=
  match App.frames velocity_leachate diffusion_gas kv with
  | Some fs =>
      Some (mkFigure
              (initial_data (App.C_leachate velocity_leachate kv)
                            (App.C_gas diffusion_gas))
              fs)
  | None => None
  end.

(** *** Design comparison *)

Definition design_options : list string :=
  ["Design A - Basic"; "Design B - Composite"; "Design C - Eco-Advanced"]%string.

Definition text_basic : string := "
    - Single clay liner.
    - Economical but vulnerable to leachate seepage.
    - Basic gas venting layer.
    ".

Definition text_composite : string := "
    - Composite liner (clay + geomembrane).
    - Enhanced leachate containment.
    - Includes leachate collection and gas venting systems.
    ".

Definition text_eco : string := "
    - Multi-barrier system with GCL, HDPE liner, and biocover.
    - Excellent environmental performance.
    - Higher construction and maintenance cost.
    ".

(** The [if] / [elif] / [elif] chain on [design_option]; when no branch
    matches, nothing is rendered. *)
Definition design_summary (design_option : string) : option string :=
  if String.eqb design_option "Design A - Basic" then Some text_basic
  else if String.eqb design_option "Design B - Composite" then Some text_composite
  else if String.eqb design_option "Design C - Eco-Advanced" then Some text_eco
  else None.

(** *** One run of the script

    The inputs are the four sidebar values.  The lookup
    [liner_values[liner_type]] comes first and may raise [KeyError]; the
    figure and the design text follow. *)
Record Rendered : Type := mkRendered {
  chart : Figure;
  summary : option string
}.

Definition run (velocity_leachate diffusion_gas : R)
           (liner_type design_option : string) : option Rendered :=
  match App.k liner_type with
  | Some kv =>
      match fig velocity_leachate diffusion_gas kv with
      | Some f => Some (mkRendered f (design_summary design_option))
      | None => None
      end
  | None => None
  end.

End Page.

(** Every entry of a two-dimensional array satisfies [P]. *)
Definition all_entries (P : R -> Prop) (A : Np.ndarray2) : Prop :=
  Forall (Forall P) A.

(** * Properties *)

(** ** Arrays *)

Section ArrayFacts.

Import Np.

Lemma get2_ufunc (f : R -> R) (A : ndarray2) (i j : nat) :
  get2 (ufunc f A) i j = option_map f (get2 A i j).
Proof.
  unfold get2, ufunc.
  rewrite nth_error_map.
  destruct (nth_error A i) as [row|]; simpl; [apply nth_error_map | reflexivity].
Qed.

Lemma nth_error_zip_with {A B C : Type} (f : A -> B -> C) (l1 : list A) :
  forall (l2 : list B) (i : nat),
    nth_error (zip_with f l1 l2) i =
    match nth_error l1 i, nth_error l2 i with
    | Some a, Some b => Some (f a b)
    | _, _ => None
    end.
Proof.
  induction l1 as [|a l1 IH]; intros [|b l2] [|i]; simpl; try reflexivity.
  - destruct (nth_error l1 i); reflexivity.
  - apply IH.
Qed.

Lemma get2_ufunc2 (f : R -> R -> R) (A B : ndarray2) (i j : nat) :
  get2 (ufunc2 f A B) i j =
  match get2 A i j, get2 B i j with
  | Some a, Some b => Some (f a b)
  | _, _ => None
  end.
Proof.
  unfold get2, ufunc2.
  rewrite nth_error_zip_with.
  destruct (nth_error A i) as [ra|], (nth_error B i) as [rb|]; simpl;
    try reflexivity.
  - apply nth_error_zip_with.
  - destruct (nth_error ra j); reflexivity.
Qed.

Lemma get2_meshgrid_fst (xs ts : ndarray1) (i j : nat) :
  get2 (fst (meshgrid xs ts)) i j =
  match nth_error ts i with
  | Some _ => nth_error xs j
  | None => None
  end.
Proof.
  unfold get2, meshgrid; simpl.
  rewrite nth_error_map.
  destruct (nth_error ts i); reflexivity.
Qed.

Lemma get2_meshgrid_snd (xs ts : ndarray1) (i j : nat) :
  get2 (snd (meshgrid xs ts)) i j =
  match nth_error ts i, nth_error xs j with
  | Some tv, Some _ => Some tv
  | _, _ => None
  end.
Proof.
  unfold get2, meshgrid; simpl.
  rewrite nth_error_map.
  destruct (nth_error ts i); simpl; [|reflexivity].
  rewrite nth_error_map.
  destruct (nth_error xs j); reflexivity.
Qed.

Lemma length_zip_with {A B C : Type} (f : A -> B -> C) (l1 : list A) :
  forall l2 : list B,
    List.length (zip_with f l1 l2) = Nat.min (List.length l1) (List.length l2).
Proof.
  induction l1 as [|a l1 IH]; intros [|b l2]; simpl; auto.
Qed.

Lemma length_ufunc (f : R -> R) (A : ndarray2) :
  List.length (ufunc f A) = List.length A.
Proof. apply length_map. Qed.

Lemma length_ufunc2 (f : R -> R -> R) (A B : ndarray2) :
  List.length (ufunc2 f A B) = Nat.min (List.length A) (List.length B).
Proof. apply length_zip_with. Qed.

Lemma length_meshgrid_fst (xs ts : ndarray1) :
  List.length (fst (meshgrid xs ts)) = List.length ts.
Proof. apply length_map. Qed.

Lemma length_meshgrid_snd (xs ts : ndarray1) :
  List.length (snd (meshgrid xs ts)) = List.length ts.
Proof. apply length_map. Qed.

Lemma length_set_last (a : ndarray1) (v : R) :
  List.length (set_last a v) = List.length a.
Proof.
  induction a as [|e [|e' rest] IH]; simpl in *; congruence.
Qed.

Lemma nth_error_set_last (a : ndarray1) (v : R) :
  forall j, (j < List.length a)%nat ->
    nth_error (set_last a v) j =
    if (S j =? List.length a)%nat then Some v else nth_error a j.
Proof.
  induction a as [|e [|e' rest] IH]; intros j Hj.
  - simpl in Hj; lia.
  - simpl in Hj. assert (j = 0%nat) by lia; subst; reflexivity.
  - destruct j as [|j].
    + reflexivity.
    + change (nth_error (set_last (e :: e' :: rest) v) (S j))
        with (nth_error (set_last (e' :: rest) v) j).
      rewrite IH by (simpl in *; lia).
      reflexivity.
Qed.

Lemma length_linspace (a b : R) (num : nat) :
  List.length (linspace a b num) = num.
Proof.
  unfold linspace.
  destruct (1 <? num)%nat; rewrite ?length_set_last, length_map, length_seq;
    reflexivity.
Qed.

(** In exact arithmetic the overwritten last sample is the value the
    affine formula gives there, so every sample is [start + j * step]. *)
Lemma nth_error_linspace (a b : R) (num j : nat) :
  (1 < num)%nat -> (j < num)%nat ->
  nth_error (linspace a b num) j =
  Some (INR j * ((b - a) / INR (num - 1)) + a).
Proof.
  intros Hnum Hj.
  unfold linspace.
  destruct (Nat.ltb_spec 1 num) as [_|]; [|lia].
  rewrite nth_error_set_last by (rewrite length_map, length_seq; exact Hj).
  rewrite length_map, length_seq.
  destruct (Nat.eqb_spec (S j) num) as [E|NE].
  - f_equal.
    replace (num - 1)%nat with j by lia.
    assert (INR j <> 0) by (apply not_0_INR; lia).
    field; assumption.
  - rewrite nth_error_map, nth_error_seq.
    destruct (Nat.ltb_spec j num); [reflexivity | lia].
Qed.

End ArrayFacts.

(** ** The two fields over an arbitrary grid *)

Section FieldFacts.

Import Np.

Variables xs ts : ndarray1.

Lemma leachate_field_get2 (v kv : R) (i j : nat) :
  get2 (App.leachate_field v kv (fst (meshgrid xs ts)) (snd (meshgrid xs ts))) i j =
  match nth_error ts i, nth_error xs j with
  | Some tv, Some xv => Some (App.leachate_at v kv xv tv)
  | _, _ => None
  end.
Proof.
  unfold App.leachate_field.
  rewrite !get2_ufunc, get2_ufunc2, !get2_ufunc, get2_ufunc2, get2_ufunc.
  rewrite get2_meshgrid_fst, get2_meshgrid_snd.
  destruct (nth_error ts i) as [tv|]; [|reflexivity].
  destruct (nth_error xs j) as [xv|]; reflexivity.
Qed.

Lemma gas_field_get2 (d : R) (i j : nat) :
  get2 (App.gas_field d (fst (meshgrid xs ts)) (snd (meshgrid xs ts))) i j =
  match nth_error ts i, nth_error xs j with
  | Some tv, Some xv => Some (App.gas_at d xv tv)
  | _, _ => None
  end.
Proof.
  unfold App.gas_field.
  rewrite get2_ufunc2, !get2_ufunc.
  rewrite get2_meshgrid_fst, get2_meshgrid_snd.
  destruct (nth_error ts i) as [tv|]; [|reflexivity].
  destruct (nth_error xs j) as [xv|]; reflexivity.
Qed.

Lemma length_leachate_field (v kv : R) :
  List.length (App.leachate_field v kv (fst (meshgrid xs ts)) (snd (meshgrid xs ts))) = List.length ts.
Proof.
  unfold App.leachate_field.
  rewrite ?length_ufunc, ?length_ufunc2, ?length_ufunc, ?length_ufunc2,
    ?length_ufunc, ?length_meshgrid_fst, ?length_meshgrid_snd.
  lia.
Qed.

Lemma length_gas_field (d : R) :
  List.length (App.gas_field d (fst (meshgrid xs ts)) (snd (meshgrid xs ts))) = List.length ts.
Proof.
  unfold App.gas_field.
  rewrite ?length_ufunc2, ?length_ufunc, ?length_meshgrid_fst,
    ?length_meshgrid_snd.
  lia.
Qed.

End FieldFacts.

(** ** The grid of the script *)

Lemma length_x : List.length App.x = 50%nat.
Proof. apply length_linspace. Qed.

Lemma length_t : List.length App.t = 80%nat.
Proof. apply length_linspace. Qed.

Lemma x_nth (j : nat) :
  (j < 50)%nat -> nth_error App.x j = Some (INR j * (5 / 49)).
Proof.
  intro Hj. unfold App.x.
  rewrite nth_error_linspace by lia.
  f_equal. change (50 - 1)%nat with 49%nat.
  replace (INR 49) with 49 by (simpl; lra).
  lra.
Qed.

Lemma t_nth (i : nat) :
  (i < 80)%nat -> nth_error App.t i = Some (0.1 + INR i * (39.9 / 79)).
Proof.
  intro Hi. unfold App.t.
  rewrite nth_error_linspace by lia.
  f_equal. change (80 - 1)%nat with 79%nat.
  replace (INR 79) with 79 by (simpl; lra).
  lra.
Qed.

Lemma x_nth_bounds (j : nat) (xv : R) :
  nth_error App.x j = Some xv -> 0 <= xv <= 5.
Proof.
  intro H.
  assert (Hj : (j < 50)%nat).
  { rewrite <- length_x. apply nth_error_Some. congruence. }
  rewrite x_nth in H by exact Hj. injection H as <-.
  assert (0 <= INR j) by apply pos_INR.
  assert (INR j <= 49).
  { replace 49 with (INR 49) by (simpl; lra). apply le_INR. lia. }
  lra.
Qed.

Lemma t_nth_bounds (i : nat) (tv : R) :
  nth_error App.t i = Some tv -> 0.1 <= tv <= 40.
Proof.
  intro H.
  assert (Hi : (i < 80)%nat).
  { rewrite <- length_t. apply nth_error_Some. congruence. }
  rewrite t_nth in H by exact Hi. injection H as <-.
  assert (0 <= INR i) by apply pos_INR.
  assert (INR i <= 79).
  { replace 79 with (INR 79) by (simpl; lra). apply le_INR. lia. }
  lra.
Qed.

Lemma t_nth_increasing (i1 i2 : nat) (t1 t2 : R) :
  (i1 < i2)%nat ->
  nth_error App.t i1 = Some t1 -> nth_error App.t i2 = Some t2 -> t1 < t2.
Proof.
  intros Hlt H1 H2.
  assert (Hi2 : (i2 < 80)%nat).
  { rewrite <- length_t. apply nth_error_Some. congruence. }
  rewrite t_nth in H1 by lia. rewrite t_nth in H2 by lia.
  injection H1 as <-. injection H2 as <-.
  apply lt_INR in Hlt. lra.
Qed.

Lemma C_leachate_get2 (v kv : R) (i j : nat) :
  Np.get2 (App.C_leachate v kv) i j =
  match nth_error App.t i, nth_error App.x j with
  | Some tv, Some xv => Some (App.leachate_at v kv xv tv)
  | _, _ => None
  end.
Proof. apply leachate_field_get2. Qed.

Lemma C_gas_get2 (d : R) (i j : nat) :
  Np.get2 (App.C_gas d) i j =
  match nth_error App.t i, nth_error App.x j with
  | Some tv, Some xv => Some (App.gas_at d xv tv)
  | _, _ => None
  end.
Proof. apply gas_field_get2. Qed.

Lemma length_C_leachate (v kv : R) : List.length (App.C_leachate v kv) = 80%nat.
Proof.
  unfold App.C_leachate, App.X, App.T.
  rewrite length_leachate_field. apply length_t.
Qed.

Lemma length_C_gas (d : R) : List.length (App.C_gas d) = 80%nat.
Proof.
  unfold App.C_gas, App.X, App.T.
  rewrite length_gas_field. apply length_t.
Qed.

(** ** The liner table *)

(** Every option of the select box has an entry in [liner_values], so the
    lookup [liner_values[liner_type]] never raises, and the permeability it
    returns is one of the three constants. *)
Lemma k_defined (liner_type : string) :
  In liner_type App.liner_options ->
  exists kv : R, App.k liner_type = Some kv /\ App.liner_in_range kv.
Proof.
  unfold App.liner_in_range.
  intros [<-|[<-|[<-|[]]]]; eexists; (split; [reflexivity|]); auto.
Qed.

(** ** Values taken by the two formulas *)

Lemma cos_grid_pos (xv : R) : 0 <= xv <= 5 -> 0 < cos (PI * xv / 20).
Proof.
  intros [H0 H5].
  pose proof PI_RGT_0 as HPI.
  apply cos_gt_0; nra.
Qed.

Lemma leachate_at_bounds (v kv xv tv : R) :
  0 < kv -> 0 < tv -> 0 < App.leachate_at v kv xv tv < 1.
Proof.
  intros Hk Ht. unfold App.leachate_at.
  set (a := - (xv - v * tv) ^ 2 / (4 * tv)).
  assert (Ha : a <= 0).
  { unfold a.
    assert (0 <= (xv - v * tv) ^ 2) by (apply pow2_ge_0).
    assert (0 < / (4 * tv)) by (apply Rinv_0_lt_compat; lra).
    unfold Rdiv. nra. }
  assert (He1 : exp a <= 1).
  { rewrite <- exp_0. destruct Ha as [Ha|Ha].
    - left. apply exp_increasing. exact Ha.
    - right. rewrite Ha. reflexivity. }
  assert (He2 : exp (- kv * 10) < 1).
  { rewrite <- exp_0. apply exp_increasing. lra. }
  pose proof (exp_pos a). pose proof (exp_pos (- kv * 10)).
  split; nra.
Qed.

Lemma gas_at_bounds (d xv tv : R) :
  0 < d -> 0 < tv -> 0 <= xv <= 5 -> 0 < App.gas_at d xv tv < 1.
Proof.
  intros Hd Ht Hx. unfold App.gas_at.
  pose proof (cos_grid_pos xv Hx) as Hc.
  pose proof (COS_bound (PI * xv / 20)) as [_ Hc1].
  assert (He : exp (- d * tv / 10) < 1).
  { rewrite <- exp_0. apply exp_increasing. nra. }
  pose proof (exp_pos (- d * tv / 10)) as Hp.
  set (c := cos (PI * xv / 20)) in *.
  set (e := exp (- d * tv / 10)) in *.
  assert (Hc2 : 0 < c ^ 2 <= 1) by (simpl; split; nra).
  destruct Hc2 as [Hc2 Hc2'].
  split.
  - apply Rmult_lt_0_compat; assumption.
  - apply Rle_lt_trans with (e * 1); [|lra].
    apply Rmult_le_compat_l; lra.
Qed.

Lemma gas_at_decreasing (d xv t1 t2 : R) :
  0 < d -> 0 <= xv <= 5 -> t1 < t2 ->
  App.gas_at d xv t2 < App.gas_at d xv t1.
Proof.
  intros Hd Hx Hlt. unfold App.gas_at.
  pose proof (cos_grid_pos xv Hx) as Hc.
  assert (He : exp (- d * t2 / 10) < exp (- d * t1 / 10)).
  { apply exp_increasing. nra. }
  assert (0 < cos (PI * xv / 20) ^ 2) by (simpl; nra).
  apply Rmult_lt_compat_r; assumption.
Qed.

Lemma gas_at_odd_multiple_of_10 (d tv : R) (m : Z) :
  App.gas_at d (10 * IZR (2 * m + 1)) tv = 0.
Proof.
  unfold App.gas_at.
  rewrite (cos_eq_0_1 (PI * (10 * IZR (2 * m + 1)) / 20)).
  - ring.
  - exists m. rewrite plus_IZR, mult_IZR. field.
Qed.

Lemma gas_at_odd_multiple_of_20 (d tv : R) (m : Z) :
  App.gas_at d (20 * IZR (2 * m + 1)) tv = exp (- d * tv / 10).
Proof.
  unfold App.gas_at.
  set (y := PI * (20 * IZR (2 * m + 1)) / 20).
  assert (Hs : sin y = 0).
  { apply sin_eq_0_1. exists (2 * m + 1)%Z. unfold y. field. }
  pose proof (sin2_cos2 y) as H. unfold Rsqr in H. rewrite Hs in H.
  replace (cos y ^ 2) with 1 by (simpl; lra).
  ring.
Qed.

(** ** The loop over [range(1, len(t), 2)] *)

Lemma range_from_step2 (c : nat) :
  forall fuel i stop : nat,
    (c <= fuel)%nat -> (stop <= i + 2 * c)%nat -> (i + 2 * c < stop + 2)%nat ->
    range_from fuel i stop 2 = map (fun n => (i + 2 * n)%nat) (seq 0 c).
Proof.
  induction c as [|c IH]; intros fuel i stop Hf Hge Hlt.
  - destruct fuel as [|fuel]; simpl; [reflexivity|].
    destruct (Nat.ltb_spec i stop); [lia | reflexivity].
  - destruct fuel as [|fuel]; [lia|].
    simpl range_from.
    destruct (Nat.ltb_spec i stop); [|lia].
    rewrite (IH fuel (i + 2)%nat stop) by lia.
    change (seq 0 (S c)) with (0%nat :: seq 1 c).
    rewrite <- seq_shift, map_cons, map_map.
    f_equal; [lia|].
    apply map_ext. intros n. lia.
Qed.

Lemma range_1_step2 (n : nat) :
  range 1 n 2 = map (fun m => (1 + 2 * m)%nat) (seq 0 (n / 2)).
Proof.
  unfold range.
  pose proof (Nat.div_mod_eq n 2) as Hdm.
  pose proof (Nat.mod_upper_bound n 2 ltac:(lia)) as Hmod.
  apply range_from_step2; lia.
Qed.

Lemma append_frames_total (L G : Np.ndarray2) (ts : Np.ndarray1) (idxs : list nat) :
  forall acc : list App.Frame,
    Forall (fun i => (i < List.length ts)%nat) idxs ->
    App.append_frames L G ts idxs acc = Some (acc ++ map (frame_of L G ts) idxs).
Proof.
  induction idxs as [|i rest IH]; intros acc Hall; simpl.
  - rewrite app_nil_r. reflexivity.
  - inversion Hall as [|? ? Hi Hrest]; subst.
    unfold App.frame_at, Np.get1.
    destruct (nth_error ts i) as [ti|] eqn:E.
    + rewrite IH by exact Hrest.
      rewrite <- app_assoc. simpl.
      unfold frame_of at 2.
      rewrite (nth_error_nth _ _ 0 E).
      reflexivity.
    + apply nth_error_None in E. lia.
Qed.

Lemma build_frames_total (L G : Np.ndarray2) (ts : Np.ndarray1) :
  App.build_frames L G ts =
  Some (map (fun m => frame_of L G ts (1 + 2 * m)) (seq 0 (List.length ts / 2))).
Proof.
  unfold App.build_frames.
  rewrite range_1_step2, append_frames_total.
  - simpl. rewrite map_map. reflexivity.
  - apply Forall_forall. intros i Hin.
    apply in_map_iff in Hin. destruct Hin as [m [<- Hm]].
    apply in_seq in Hm.
    pose proof (Nat.div_mod_eq (List.length ts) 2).
    pose proof (Nat.mod_upper_bound (List.length ts) 2 ltac:(lia)).
    lia.
Qed.

Lemma frames_total (v d kv : R) :
  App.frames v d kv =
  Some (map (fun m => frame_of (App.C_leachate v kv) (App.C_gas d) App.t (1 + 2 * m))
            (seq 0 40)).
Proof.
  unfold App.frames. rewrite build_frames_total, length_t. reflexivity.
Qed.

Lemma frame_k_total (v d kv : R) (n : nat) :
  (n < 40)%nat ->
  frame_k v d kv n =
  Some (frame_of (App.C_leachate v kv) (App.C_gas d) App.t (1 + 2 * n)).
Proof.
  intro Hn. unfold frame_k. rewrite frames_total.
  rewrite nth_error_map, nth_error_seq.
  destruct (Nat.ltb_spec n 40); [reflexivity | lia].
Qed.

Lemma frame_k_defined (v d kv : R) (n : nat) (f : App.Frame) :
  frame_k v d kv n = Some f -> (n < 40)%nat.
Proof.
  unfold frame_k. rewrite frames_total. intro H.
  assert (Hn : nth_error
                 (map (fun m => frame_of (App.C_leachate v kv) (App.C_gas d)
                                         App.t (1 + 2 * m)) (seq 0 40)) n <> None)
    by congruence.
  apply nth_error_Some in Hn.
  rewrite length_map, length_seq in Hn. exact Hn.
Qed.

Lemma firstn_prefix {A : Type} (n : nat) (l : list A) :
  App.prefix_of (firstn n l) l.
Proof. exists (skipn n l). symmetry. apply firstn_skipn. Qed.

Lemma firstn_prefix_firstn {A : Type} (n m : nat) (l : list A) :
  (n <= m)%nat -> App.prefix_of (firstn n l) (firstn m l).
Proof.
  intro Hnm. exists (skipn n (firstn m l)).
  rewrite <- (firstn_skipn n (firstn m l)) at 1.
  rewrite firstn_firstn. replace (Nat.min n m) with n by lia. reflexivity.
Qed.

(** ** Numeric bounds on [exp] *)

Lemma exp_INR_mult (n : nat) (y : R) : exp (INR n * y) = exp y ^ n.
Proof.
  induction n as [|n IH].
  - simpl. rewrite Rmult_0_l. apply exp_0.
  - rewrite S_INR, Rmult_plus_distr_r, Rmult_1_l, exp_plus, IH. simpl. ring.
Qed.

Lemma exp_pow_lower (n : nat) (y : R) :
  -1 <= y -> (1 + y) ^ n <= exp (INR n * y).
Proof.
  intro Hy. rewrite exp_INR_mult.
  apply pow_incr. split; [lra | apply exp_ineq1_le].
Qed.

Lemma exp_minus_tenth_lower : 0.90476 <= exp (- 0.1).
Proof.
  replace (- 0.1) with (INR 256 * (-1 / 2560))
    by (rewrite INR_IZR_INZ; simpl; lra).
  eapply Rle_trans; [|apply exp_pow_lower; lra].
  lra.
Qed.

Lemma exp_minus_tenth_upper : exp (- 0.1) < 0.90485.
Proof.
  assert (H : 1.10516 <= exp 0.1).
  { replace 0.1 with (INR 1024 * (1 / 10240))
      by (rewrite INR_IZR_INZ; simpl; lra).
    eapply Rle_trans; [|apply exp_pow_lower; lra].
    lra. }
  replace (- 0.1) with (Ropp 0.1) by lra.
  rewrite exp_Ropp.
  assert (Hinv : / exp 0.1 <= / 1.10516) by (apply Rinv_le_contravar; lra).
  lra.
Qed.

(** ** Frame facts used by several claims *)

Lemma frame_of_slices (L G : Np.ndarray2) (ts : Np.ndarray1) (i : nat) :
  App.leachate_slice (frame_of L G ts i) = firstn i L /\
  App.gas_slice (frame_of L G ts i) = firstn i G /\
  App.row_counts (frame_of L G ts i) =
  [List.length (firstn i L); List.length (firstn i G)].
Proof. repeat split. Qed.

Lemma frame_k_rows (v d kv : R) (n : nat) :
  (n < 40)%nat ->
  App.row_counts (frame_of (App.C_leachate v kv) (App.C_gas d) App.t (1 + 2 * n))
  = [(1 + 2 * n)%nat; (1 + 2 * n)%nat].
Proof.
  intro Hn.
  destruct (frame_of_slices (App.C_leachate v kv) (App.C_gas d) App.t (1 + 2 * n))
    as (_ & _ & ->).
  rewrite !firstn_length_le
    by (rewrite ?length_C_leachate, ?length_C_gas; lia).
  reflexivity.
Qed.

(** * The claims *)

(** C1: at every grid point, row [i] of the time grid and column [j] of
    the distance grid, the leachate field holds
    [exp(-((x - velocity*t)^2) / (4*t)) * exp(-linerPermeability*10)] for
    the grid values [x = x[j]] and [t = t[i]]; the time value is at least
    0.1, so the division is by a positive number. *)
Theorem C1_leachate_entry (v kv : R) (i j : nat) :
  (i < 80)%nat -> (j < 50)%nat ->
  exists xv tv : R,
    Np.get1 App.x j = Some xv /\
    Np.get1 App.t i = Some tv /\
    0.1 <= tv /\
    Np.get2 (App.C_leachate v kv) i j =
    Some (exp (- ((xv - v * tv) ^ 2) / (4 * tv)) * exp (- kv * 10)).
Proof.
  intros Hi Hj.
  exists (INR j * (5 / 49)), (0.1 + INR i * (39.9 / 79)).
  pose proof (x_nth j Hj) as Hx. pose proof (t_nth i Hi) as Ht.
  repeat split; try assumption.
  - apply (t_nth_bounds i). exact Ht.
  - rewrite C_leachate_get2, Hx, Ht. reflexivity.
Qed.

Lemma C1_leachate_entry_witness :
  (3 < 80)%nat /\ (7 < 50)%nat /\
  exists xv tv : R,
    Np.get1 App.x 7 = Some xv /\
    Np.get1 App.t 3 = Some tv /\
    0.1 <= tv /\
    Np.get2 (App.C_leachate 2 1e-9) 3 7 =
    Some (exp (- ((xv - 2 * tv) ^ 2) / (4 * tv)) * exp (- (1e-9) * 10)).
Proof.
  split; [lia|]. split; [lia|].
  apply (C1_leachate_entry 2 1e-9 3 7); lia.
Defined.

(** C2: at every grid point the gas field holds
    [exp(-diffusionRate*t/10) * cos(pi*x/20)^2] for the grid values
    [x = x[j]] and [t = t[i]]. *)
Theorem C2_gas_entry (d : R) (i j : nat) :
  (i < 80)%nat -> (j < 50)%nat ->
  exists xv tv : R,
    Np.get1 App.x j = Some xv /\
    Np.get1 App.t i = Some tv /\
    Np.get2 (App.C_gas d) i j =
    Some (exp (- d * tv / 10) * cos (PI * xv / 20) ^ 2).
Proof.
  intros Hi Hj.
  exists (INR j * (5 / 49)), (0.1 + INR i * (39.9 / 79)).
  pose proof (x_nth j Hj) as Hx. pose proof (t_nth i Hi) as Ht.
  repeat split; try assumption.
  rewrite C_gas_get2, Hx, Ht. reflexivity.
Qed.

Lemma C2_gas_entry_witness :
  (79 < 80)%nat /\ (49 < 50)%nat /\
  exists xv tv : R,
    Np.get1 App.x 49 = Some xv /\
    Np.get1 App.t 79 = Some tv /\
    Np.get2 (App.C_gas 0.3) 79 49 =
    Some (exp (- (0.3) * tv / 10) * cos (PI * xv / 20) ^ 2).
Proof.
  split; [lia|]. split; [lia|].
  apply (C2_gas_entry 0.3 79 49); lia.
Defined.

(** C3, as stated, fails: with the 80-point time grid the loop over
    [range(1, 80, 2)] visits 1, 3, ..., 79 and appends 40 frames, while
    [floor((80 - 1) / 2)] is 39. *)
Lemma C3_frame_count_not_39 :
  exists fs : list App.Frame,
    App.frames 2 0.3 1e-9 = Some fs /\
    List.length fs = 40%nat /\
    ((List.length App.t - 1) / 2 = 39)%nat /\
    List.length fs <> ((List.length App.t - 1) / 2)%nat.
Proof.
  eexists. split; [apply frames_total|].
  rewrite length_map, length_seq, length_t.
  repeat split. discriminate.
Qed.

(** C3, amended: the frame assembler always returns a list, of length
    [floor(len(timeGrid) / 2)] (the number of odd indices below
    [len(timeGrid)]); for the 80-point time grid of the script that is
    exactly 40 frames. *)
Theorem C3_frame_count :
  (forall (L G : Np.ndarray2) (ts : Np.ndarray1),
      exists fs : list App.Frame,
        App.build_frames L G ts = Some fs /\
        List.length fs = (List.length ts / 2)%nat) /\
  (forall v d kv : R,
      exists fs : list App.Frame,
        App.frames v d kv = Some fs /\
        List.length App.t = 80%nat /\
        List.length fs = 40%nat).
Proof.
  split.
  - intros L G ts. eexists. split; [apply build_frames_total|].
    rewrite length_map, length_seq. reflexivity.
  - intros v d kv. eexists. split; [apply frames_total|].
    split; [apply length_t|].
    rewrite length_map, length_seq. reflexivity.
Qed.

(** C4: for a positive diffusion rate and any distance-grid column [j],
    the gas field strictly decreases along the time axis: the entry at a
    later time index is strictly smaller than the entry at an earlier
    one. *)
Theorem C4_gas_strictly_decreasing (d : R) (j i1 i2 : nat) :
  0 < d -> (j < 50)%nat -> (i1 < i2)%nat -> (i2 < 80)%nat ->
  exists g1 g2 : R,
    Np.get2 (App.C_gas d) i1 j = Some g1 /\
    Np.get2 (App.C_gas d) i2 j = Some g2 /\
    g2 < g1.
Proof.
  intros Hd Hj Hlt Hi2.
  pose proof (x_nth j Hj) as Hx.
  assert (Hi1 : (i1 < 80)%nat) by lia.
  pose proof (t_nth i1 Hi1) as Ht1. pose proof (t_nth i2 Hi2) as Ht2.
  eexists. eexists.
  rewrite !C_gas_get2, Hx, Ht1, Ht2.
  split; [reflexivity|]. split; [reflexivity|].
  apply gas_at_decreasing.
  - exact Hd.
  - apply (x_nth_bounds j). exact Hx.
  - apply (t_nth_increasing i1 i2); assumption.
Qed.

Lemma C4_gas_strictly_decreasing_witness :
  0 < 0.3 /\ (5 < 50)%nat /\ (0 < 1)%nat /\ (1 < 80)%nat /\
  exists g1 g2 : R,
    Np.get2 (App.C_gas 0.3) 0 5 = Some g1 /\
    Np.get2 (App.C_gas 0.3) 1 5 = Some g2 /\
    g2 < g1.
Proof.
  split; [lra|]. split; [lia|]. split; [lia|]. split; [lia|].
  apply (C4_gas_strictly_decreasing 0.3 5 0 1); [lra | lia | lia | lia].
Defined.

(** C5: the liner table maps the clay liner to 1e-7 and the composite
    liner to 1e-10, and replacing the first by the second, velocity
    unchanged, multiplies every entry of the leachate field by the one
    factor [exp(-10 * (1e-10 - 1e-7))]. *)
Theorem C5_liner_rescales_leachate (v : R) (i j : nat) :
  (i < 80)%nat -> (j < 50)%nat ->
  App.k "Clay (1e-7 m/s)" = Some 1e-7 /\
  App.k "Composite (1e-10 m/s)" = Some 1e-10 /\
  exists e1 e2 : R,
    Np.get2 (App.C_leachate v 1e-7) i j = Some e1 /\
    Np.get2 (App.C_leachate v 1e-10) i j = Some e2 /\
    e2 = e1 * exp (- 10 * (1e-10 - 1e-7)).
Proof.
  intros Hi Hj.
  split; [reflexivity|]. split; [reflexivity|].
  pose proof (x_nth j Hj) as Hx. pose proof (t_nth i Hi) as Ht.
  eexists. eexists.
  rewrite !C_leachate_get2, Hx, Ht.
  split; [reflexivity|]. split; [reflexivity|].
  unfold App.leachate_at.
  rewrite Rmult_assoc. f_equal.
  rewrite <- exp_plus. f_equal. lra.
Qed.

Lemma C5_liner_rescales_leachate_witness :
  (40 < 80)%nat /\ (25 < 50)%nat /\
  App.k "Clay (1e-7 m/s)" = Some 1e-7 /\
  App.k "Composite (1e-10 m/s)" = Some 1e-10 /\
  exists e1 e2 : R,
    Np.get2 (App.C_leachate 2 1e-7) 40 25 = Some e1 /\
    Np.get2 (App.C_leachate 2 1e-10) 40 25 = Some e2 /\
    e2 = e1 * exp (- 10 * (1e-10 - 1e-7)).
Proof.
  split; [lia|]. split; [lia|].
  apply (C5_liner_rescales_leachate 2 40 25); lia.
Defined.

(** C6: for every frame index [n] (there are 40), the [n]-th frame holds
    the first [1 + 2n] rows of the leachate field and of the gas field, so
    both slices have exactly [1 + 2n] rows and are prefixes of the full
    fields; the slices of frame [n] are prefixes of the slices of frame
    [n + 1], which have strictly more rows. *)
Theorem C6_frame_row_prefix (v d kv : R) (n : nat) :
  (n < 40)%nat ->
  exists f : App.Frame,
    frame_k v d kv n = Some f /\
    App.leachate_slice f = Np.rows_upto (1 + 2 * n) (App.C_leachate v kv) /\
    App.gas_slice f = Np.rows_upto (1 + 2 * n) (App.C_gas d) /\
    App.row_counts f = [(1 + 2 * n)%nat; (1 + 2 * n)%nat] /\
    App.prefix_of (App.leachate_slice f) (App.C_leachate v kv) /\
    App.prefix_of (App.gas_slice f) (App.C_gas d) /\
    forall f' : App.Frame,
      frame_k v d kv (S n) = Some f' ->
      App.prefix_of (App.leachate_slice f) (App.leachate_slice f') /\
      App.prefix_of (App.gas_slice f) (App.gas_slice f') /\
      forall c c' : nat,
        In c (App.row_counts f) -> In c' (App.row_counts f') -> (c < c')%nat.
Proof.
  intro Hn.
  eexists. split; [apply frame_k_total; exact Hn|].
  split; [reflexivity|]. split; [reflexivity|].
  split; [apply frame_k_rows; exact Hn|].
  split; [apply firstn_prefix|]. split; [apply firstn_prefix|].
  intros f' Hf'.
  assert (Hn' : (S n < 40)%nat) by (apply (frame_k_defined v d kv _ f'); exact Hf').
  rewrite frame_k_total in Hf' by exact Hn'.
  assert (Ef : f' = frame_of (App.C_leachate v kv) (App.C_gas d) App.t
                             (1 + 2 * S n)) by congruence.
  clear Hf'. subst f'.
  split; [apply firstn_prefix_firstn; lia|].
  split; [apply firstn_prefix_firstn; lia|].
  rewrite (frame_k_rows v d kv n Hn), (frame_k_rows v d kv (S n) Hn').
  intros c c' Hc Hc'. simpl in Hc, Hc'. lia.
Qed.

Lemma C6_frame_row_prefix_witness :
  (38 < 40)%nat /\
  exists f : App.Frame,
    frame_k 2 0.3 1e-9 38 = Some f /\
    App.leachate_slice f = Np.rows_upto (1 + 2 * 38) (App.C_leachate 2 1e-9) /\
    App.gas_slice f = Np.rows_upto (1 + 2 * 38) (App.C_gas 0.3) /\
    App.row_counts f = [(1 + 2 * 38)%nat; (1 + 2 * 38)%nat] /\
    App.prefix_of (App.leachate_slice f) (App.C_leachate 2 1e-9) /\
    App.prefix_of (App.gas_slice f) (App.C_gas 0.3) /\
    forall f' : App.Frame,
      frame_k 2 0.3 1e-9 (S 38) = Some f' ->
      App.prefix_of (App.leachate_slice f) (App.leachate_slice f') /\
      App.prefix_of (App.gas_slice f) (App.gas_slice f') /\
      forall c c' : nat,
        In c (App.row_counts f) -> In c' (App.row_counts f') -> (c < c')%nat.
Proof.
  split; [lia|].
  apply (C6_frame_row_prefix 2 0.3 1e-9 38); lia.
Defined.

Lemma field_entries_in_unit_interval (v d kv : R) (i j : nat) (e : R) :
  0 < d -> 0 < kv ->
  Np.get2 (App.C_leachate v kv) i j = Some e \/
  Np.get2 (App.C_gas d) i j = Some e ->
  0 < e < 1.
Proof.
  intros Hd Hk H.
  rewrite C_leachate_get2, C_gas_get2 in H.
  destruct (nth_error App.t i) as [tv|] eqn:Et;
    [|destruct H; discriminate].
  destruct (nth_error App.x j) as [xv|] eqn:Ex;
    [|destruct H; discriminate].
  pose proof (t_nth_bounds i tv Et) as Htv.
  pose proof (x_nth_bounds j xv Ex) as Hxv.
  destruct H as [H|H]; injection H as <-.
  - apply leachate_at_bounds; lra.
  - apply gas_at_bounds; [lra | lra | exact Hxv].
Qed.

(** C7, as stated, fails: for no parameter combination within the slider
    ranges does an entry of the leachate field or of the gas field exceed
    1. *)
Lemma C7_no_entry_exceeds_one :
  ~ (exists (v d kv : R) (i j : nat) (e : R),
        App.velocity_in_range v /\ App.diffusion_in_range d /\
        App.liner_in_range kv /\
        (Np.get2 (App.C_leachate v kv) i j = Some e \/
         Np.get2 (App.C_gas d) i j = Some e) /\
        1 < e).
Proof.
  intros (v & d & kv & i & j & e & Hv & Hd & Hk & He & Hgt).
  unfold App.diffusion_in_range in Hd. unfold App.liner_in_range in Hk.
  assert (Hb : 0 < e < 1).
  { apply (field_entries_in_unit_interval v d kv i j e).
    - lra.
    - destruct Hk as [->|[->| ->]]; lra.
    - exact He. }
  lra.
Qed.

(** C7, amended: for every parameter combination within the slider ranges
    (velocity in [0.1, 10], diffusion rate in [0.01, 2], liner permeability
    one of 1e-7, 1e-9, 1e-10), no entry of the leachate field and no entry
    of the gas field exceeds 1: every entry is at most 1. *)
Theorem C7_no_field_entry_above_one (v d kv : R) (i j : nat) :
  App.velocity_in_range v -> App.diffusion_in_range d -> App.liner_in_range kv ->
  (i < 80)%nat -> (j < 50)%nat ->
  exists e1 e2 : R,
    Np.get2 (App.C_leachate v kv) i j = Some e1 /\
    Np.get2 (App.C_gas d) i j = Some e2 /\
    e1 <= 1 /\ e2 <= 1.
Proof.
  intros Hv Hd Hk Hi Hj.
  unfold App.diffusion_in_range in Hd. unfold App.liner_in_range in Hk.
  assert (Hkpos : 0 < kv) by (destruct Hk as [->|[->| ->]]; lra).
  assert (Hdpos : 0 < d) by lra.
  pose proof (x_nth j Hj) as Hx. pose proof (t_nth i Hi) as Ht.
  eexists. eexists.
  split; [rewrite C_leachate_get2, Hx, Ht; reflexivity|].
  split; [rewrite C_gas_get2, Hx, Ht; reflexivity|].
  split.
  - apply Rlt_le.
    apply (field_entries_in_unit_interval v d kv i j); try assumption.
    left. rewrite C_leachate_get2, Hx, Ht. reflexivity.
  - apply Rlt_le.
    apply (field_entries_in_unit_interval v d kv i j); try assumption.
    right. rewrite C_gas_get2, Hx, Ht. reflexivity.
Qed.

Lemma C7_no_field_entry_above_one_witness :
  App.velocity_in_range 10 /\ App.diffusion_in_range 0.01 /\
  App.liner_in_range 1e-10 /\ (79 < 80)%nat /\ (0 < 50)%nat /\
  exists e1 e2 : R,
    Np.get2 (App.C_leachate 10 1e-10) 79 0 = Some e1 /\
    Np.get2 (App.C_gas 0.01) 79 0 = Some e2 /\
    e1 <= 1 /\ e2 <= 1.
Proof.
  assert (Hv : App.velocity_in_range 10) by (unfold App.velocity_in_range; lra).
  assert (Hd : App.diffusion_in_range 0.01)
    by (unfold App.diffusion_in_range; lra).
  assert (Hk : App.liner_in_range 1e-10)
    by (unfold App.liner_in_range; right; right; reflexivity).
  split; [exact Hv|]. split; [exact Hd|]. split; [exact Hk|].
  split; [lia|]. split; [lia|].
  apply (C7_no_field_entry_above_one 10 0.01 1e-10 79 0 Hv Hd Hk); lia.
Defined.

(** The distance grid of the script lies in [0, 5]: none of its points is
    an odd multiple of 20, nor an odd multiple of 10, where
    [cos(pi*x/20)] vanishes. *)
Lemma x_grid_holds_no_odd_multiple (j : nat) (xv : R) (m : Z) :
  nth_error App.x j = Some xv ->
  xv <> 20 * IZR (2 * m + 1) /\ xv <> 10 * IZR (2 * m + 1).
Proof.
  intro Hx. pose proof (x_nth_bounds j xv Hx) as Hb.
  destruct (Z_le_gt_dec 0 m) as [Hm|Hm].
  - assert (H1 : 1 <= IZR (2 * m + 1)) by (apply IZR_le; lia).
    split; lra.
  - assert (H1 : IZR (2 * m + 1) <= -1) by (apply IZR_le; lia).
    split; lra.
Qed.

(** C9: the distance grid has 50 points from 0 to 5 and the time grid 80
    points from 0.1 to 40; with velocity 2.0 and the geomembrane liner
    (1e-9) the leachate field entry at the first grid point
    [(x = 0, t = 0.1)] is
    [exp(-(0 - 2*0.1)^2 / (4*0.1)) * exp(-1e-9*10)], which is
    [exp(-0.1) * exp(-1e-8)] and rounds to 0.9048 at four decimals. *)
Theorem C9_leachate_first_entry :
  List.length App.x = 50%nat /\ List.length App.t = 80%nat /\
  Np.get1 App.x 0 = Some 0 /\ Np.get1 App.x 49 = Some 5 /\
  Np.get1 App.t 0 = Some 0.1 /\ Np.get1 App.t 79 = Some 40 /\
  App.k "Geomembrane (1e-9 m/s)" = Some 1e-9 /\
  exists e : R,
    Np.get2 (App.C_leachate 2 1e-9) 0 0 = Some e /\
    e = exp (- ((0 - 2 * 0.1) ^ 2) / (4 * 0.1)) * exp (- (1e-9) * 10) /\
    e = exp (- 0.1) * exp (- 1e-8) /\
    0.90475 < e < 0.90485.
Proof.
  assert (Hx0 : nth_error App.x 0 = Some 0).
  { rewrite x_nth by lia. f_equal. simpl. lra. }
  assert (Ht0 : nth_error App.t 0 = Some 0.1).
  { rewrite t_nth by lia. f_equal. simpl. lra. }
  split; [apply length_x|]. split; [apply length_t|].
  split; [exact Hx0|].
  split.
  { unfold Np.get1. rewrite x_nth by lia. f_equal.
    rewrite INR_IZR_INZ. simpl. lra. }
  split; [exact Ht0|].
  split.
  { unfold Np.get1. rewrite t_nth by lia. f_equal.
    rewrite INR_IZR_INZ. simpl. lra. }
  split; [reflexivity|].
  eexists. split; [rewrite C_leachate_get2, Ht0, Hx0; reflexivity|].
  split; [reflexivity|].
  unfold App.leachate_at.
  assert (E1 : - (0 - 2 * 0.1) ^ 2 / (4 * 0.1) = - 0.1) by (simpl; lra).
  assert (E2 : - (1e-9) * 10 = - 1e-8) by lra.
  rewrite E1, E2.
  split; [reflexivity|].
  pose proof exp_minus_tenth_lower as Hlo.
  pose proof exp_minus_tenth_upper as Hhi.
  assert (Hk1 : 1 - 1e-8 <= exp (- 1e-8)).
  { replace (1 - 1e-8) with (1 + - 1e-8) by lra. apply exp_ineq1_le. }
  assert (Hk2 : exp (- 1e-8) < 1).
  { rewrite <- exp_0. apply exp_increasing. lra. }
  pose proof (exp_pos (- 0.1)).
  split; nra.
Qed.

(** C10: no animation frame holds a complete field.  Both fields have 80
    rows; every one of the 40 frames has fewer than 80 rows in both of its
    slices, so neither slice is the full field; the last frame, the
    largest, holds the first 79 rows. *)
Theorem C10_no_frame_is_complete (v d kv : R) :
  List.length (App.C_leachate v kv) = 80%nat /\
  List.length (App.C_gas d) = 80%nat /\
  exists fs : list App.Frame,
    App.frames v d kv = Some fs /\
    Forall (fun f =>
              Forall (fun c => (c < 80)%nat) (App.row_counts f) /\
              App.leachate_slice f <> App.C_leachate v kv /\
              App.gas_slice f <> App.C_gas d) fs /\
    exists flast : App.Frame,
      nth_error fs (List.length fs - 1) = Some flast /\
      App.leachate_slice flast = Np.rows_upto 79 (App.C_leachate v kv) /\
      App.gas_slice flast = Np.rows_upto 79 (App.C_gas d) /\
      App.row_counts flast = [79%nat; 79%nat].
Proof.
  split; [apply length_C_leachate|]. split; [apply length_C_gas|].
  eexists. split; [apply frames_total|].
  split.
  - apply Forall_forall. intros f Hin.
    apply in_map_iff in Hin. destruct Hin as [n [<- Hn]].
    apply in_seq in Hn.
    assert (Hn' : (n < 40)%nat) by lia.
    pose proof (frame_k_rows v d kv n Hn') as Hrows.
    split.
    + rewrite Hrows.
      apply Forall_cons; [lia|]. apply Forall_cons; [lia|]. apply Forall_nil.
    + split; intro E.
      * apply (f_equal (@List.length _)) in E.
        change (List.length (firstn (1 + 2 * n) (App.C_leachate v kv))
                = List.length (App.C_leachate v kv)) in E.
        rewrite firstn_length_le in E by (rewrite length_C_leachate; lia).
        rewrite length_C_leachate in E. lia.
      * apply (f_equal (@List.length _)) in E.
        change (List.length (firstn (1 + 2 * n) (App.C_gas d))
                = List.length (App.C_gas d)) in E.
        rewrite firstn_length_le in E by (rewrite length_C_gas; lia).
        rewrite length_C_gas in E. lia.
  - rewrite length_map, length_seq.
    eexists. split.
    + rewrite nth_error_map. reflexivity.
    + split; [reflexivity|]. split; [reflexivity|].
      apply (frame_k_rows v d kv 39). lia.
Qed.

(** * Further properties of the script *)

(** ** Grids and array shapes *)

Lemma row_length_from_lookup {A : Type} (row : list A) (c : nat) :
  (forall j, nth_error row j <> None <-> (j < c)%nat) -> List.length row = c.
Proof.
  intro H.
  assert (H1 : ~ (List.length row < c)%nat).
  { intro Hlt. apply H in Hlt. apply nth_error_Some in Hlt. lia. }
  assert (H2 : ~ (c < List.length row)%nat).
  { intro Hlt. apply nth_error_Some in Hlt. apply H in Hlt. lia. }
  lia.
Qed.

Lemma grid_lookup_defined (i j : nat) :
  (exists tv xv, nth_error App.t i = Some tv /\ nth_error App.x j = Some xv) <->
  (i < 80)%nat /\ (j < 50)%nat.
Proof.
  split.
  - intros (tv & xv & Ht & Hx). split.
    + rewrite <- length_t. apply nth_error_Some. congruence.
    + rewrite <- length_x. apply nth_error_Some. congruence.
  - intros [Hi Hj]. eexists. eexists.
    split; [apply t_nth; exact Hi | apply x_nth; exact Hj].
Qed.

Lemma C_leachate_defined (v kv : R) (i j : nat) :
  Np.get2 (App.C_leachate v kv) i j <> None <-> (i < 80)%nat /\ (j < 50)%nat.
Proof.
  rewrite C_leachate_get2, <- grid_lookup_defined.
  destruct (nth_error App.t i) as [tv|], (nth_error App.x j) as [xv|]; split;
    try congruence;
    try (intros (? & ? & ? & ?); discriminate).
  intros _. eauto.
Qed.

Lemma C_gas_defined (d : R) (i j : nat) :
  Np.get2 (App.C_gas d) i j <> None <-> (i < 80)%nat /\ (j < 50)%nat.
Proof.
  rewrite C_gas_get2, <- grid_lookup_defined.
  destruct (nth_error App.t i) as [tv|], (nth_error App.x j) as [xv|]; split;
    try congruence;
    try (intros (? & ? & ? & ?); discriminate).
  intros _. eauto.
Qed.

Lemma rows_have_50_columns (A : Np.ndarray2) :
  List.length A = 80%nat ->
  (forall i j, Np.get2 A i j <> None <-> (i < 80)%nat /\ (j < 50)%nat) ->
  Forall (fun row => List.length row = 50%nat) A.
Proof.
  intros Hlen Hdef. apply Forall_forall. intros row Hin.
  apply In_nth_error in Hin. destruct Hin as [i Hi].
  assert (Hi80 : (i < 80)%nat).
  { rewrite <- Hlen. apply nth_error_Some. congruence. }
  apply row_length_from_lookup. intro j.
  specialize (Hdef i j). unfold Np.get2 in Hdef. rewrite Hi in Hdef.
  rewrite Hdef. split; [intros [_ H]; exact H | intro H; split; assumption].
Qed.

(** X1: both fields are 80 x 50 arrays: each has 80 rows of 50 entries,
    and an index pair [(i, j)] addresses an entry exactly when [i < 80]
    and [j < 50]; outside that range the lookup fails. *)
Theorem X1_fields_are_80_by_50 (v d kv : R) :
  List.length (App.C_leachate v kv) = 80%nat /\
  Forall (fun row => List.length row = 50%nat) (App.C_leachate v kv) /\
  List.length (App.C_gas d) = 80%nat /\
  Forall (fun row => List.length row = 50%nat) (App.C_gas d) /\
  forall i j : nat,
    (Np.get2 (App.C_leachate v kv) i j <> None <-> (i < 80)%nat /\ (j < 50)%nat) /\
    (Np.get2 (App.C_gas d) i j <> None <-> (i < 80)%nat /\ (j < 50)%nat).
Proof.
  split; [apply length_C_leachate|].
  split; [apply rows_have_50_columns;
          [apply length_C_leachate | apply C_leachate_defined]|].
  split; [apply length_C_gas|].
  split; [apply rows_have_50_columns;
          [apply length_C_gas | apply C_gas_defined]|].
  intros i j. split; [apply C_leachate_defined | apply C_gas_defined].
Qed.

(** X2: for [num > 1], [linspace(start, stop, num)] has [num] samples, the
    first is [start], the last is [stop], and any two neighbouring samples
    differ by the same step [(stop - start) / (num - 1)]; so the samples
    increase strictly when [start < stop]. *)
Theorem X2_linspace_evenly_spaced (a b : R) (num : nat) :
  (1 < num)%nat ->
  List.length (Np.linspace a b num) = num /\
  Np.get1 (Np.linspace a b num) 0 = Some a /\
  Np.get1 (Np.linspace a b num) (num - 1) = Some b /\
  forall j : nat,
    (S j < num)%nat ->
    exists u w : R,
      Np.get1 (Np.linspace a b num) j = Some u /\
      Np.get1 (Np.linspace a b num) (S j) = Some w /\
      w - u = (b - a) / INR (num - 1) /\
      (a < b -> u < w).
Proof.
  intro Hnum.
  assert (Hpos : 0 < INR (num - 1)) by (apply lt_0_INR; lia).
  split; [apply length_linspace|].
  split.
  { unfold Np.get1. rewrite nth_error_linspace by lia. f_equal. simpl. lra. }
  split.
  { unfold Np.get1. rewrite nth_error_linspace by lia. f_equal. field. lra. }
  intros j Hj. unfold Np.get1.
  rewrite !nth_error_linspace by lia.
  eexists. eexists. split; [reflexivity|]. split; [reflexivity|].
  rewrite S_INR.
  split; [field; lra|].
  intro Hab.
  assert (0 < (b - a) / INR (num - 1))
    by (apply Rdiv_lt_0_compat; lra).
  lra.
Qed.

Lemma X2_linspace_evenly_spaced_witness :
  (1 < 80)%nat /\
  List.length (Np.linspace 0.1 40 80) = 80%nat /\
  Np.get1 (Np.linspace 0.1 40 80) 0 = Some 0.1 /\
  Np.get1 (Np.linspace 0.1 40 80) (80 - 1) = Some 40 /\
  forall j : nat,
    (S j < 80)%nat ->
    exists u w : R,
      Np.get1 (Np.linspace 0.1 40 80) j = Some u /\
      Np.get1 (Np.linspace 0.1 40 80) (S j) = Some w /\
      w - u = (40 - 0.1) / INR (80 - 1) /\
      (0.1 < 40 -> u < w).
Proof.
  split; [lia|].
  apply (X2_linspace_evenly_spaced 0.1 40 80). lia.
Defined.

(** ** The index loop *)

Lemma range_from_members (s : nat) :
  (1 <= s)%nat ->
  forall fuel i stop m : nat,
    (stop - i <= fuel)%nat ->
    (In m (range_from fuel i stop s) <->
     (i <= m < stop)%nat /\ exists q : nat, m = (i + q * s)%nat).
Proof.
  intros Hs. induction fuel as [|fuel IH]; intros i stop m Hfuel.
  - simpl. split; [intros [] | intros [Hm _]; lia].
  - simpl. destruct (Nat.ltb_spec i stop) as [Hlt|Hge].
    + simpl. rewrite IH by lia. split.
      * intros [<-|[Hm [q ->]]].
        -- split; [lia|]. exists 0%nat. lia.
        -- split; [lia|]. exists (S q). simpl. lia.
      * intros [Hm [[|q] ->]].
        -- left. lia.
        -- right. simpl in *. split; [lia|]. exists q. lia.
    + split; [intros [] | intros [Hm _]; lia].
Qed.

(** X3: for a step of at least 1, [range(start, stop, step)] holds exactly
    the numbers [start + q * step] that are below [stop]: nothing at or
    beyond [stop], nothing off the stride, and none of them missing. *)
Theorem X3_range_members (start stop step m : nat) :
  (1 <= step)%nat ->
  (In m (range start stop step) <->
   (start <= m < stop)%nat /\ exists q : nat, m = (start + q * step)%nat).
Proof.
  intro Hs. unfold range. apply range_from_members; [exact Hs | lia].
Qed.

Lemma X3_range_members_witness :
  (1 <= 2)%nat /\
  (In 79%nat (range 1 80 2) <->
   (1 <= 79 < 80)%nat /\ exists q : nat, 79%nat = (1 + q * 2)%nat).
Proof.
  split; [lia|].
  apply (X3_range_members 1 80 2 79). lia.
Defined.

(** ** How the fields depend on position and on the parameters *)

Lemma leachate_exponent_nonpos (v xv tv : R) :
  0 < tv ->
  - (xv - v * tv) ^ 2 / (4 * tv) <= 0 /\
  (- (xv - v * tv) ^ 2 / (4 * tv) = 0 <-> xv = v * tv).
Proof.
  intro Ht.
  assert (Hinv : 0 < / (4 * tv)) by (apply Rinv_0_lt_compat; lra).
  assert (Hsq : 0 <= (xv - v * tv) ^ 2) by apply pow2_ge_0.
  unfold Rdiv. split; [nra|]. split.
  - intro H.
    assert (Hz : (xv - v * tv) ^ 2 = 0) by nra.
    simpl in Hz. nra.
  - intros ->. replace (v * tv - v * tv) with 0 by ring. simpl. ring.
Qed.

(** X4: every entry of the leachate field is non-negative and at most
    [exp(-k*10)], the attenuation factor of the liner; it reaches that
    value exactly at the grid points on the pulse centre, where
    [x = velocity * t]. *)
Theorem X4_leachate_peak (v kv : R) (i j : nat) :
  (i < 80)%nat -> (j < 50)%nat ->
  exists xv tv e : R,
    Np.get1 App.x j = Some xv /\
    Np.get1 App.t i = Some tv /\
    Np.get2 (App.C_leachate v kv) i j = Some e /\
    0 <= e <= exp (- kv * 10) /\
    (e = exp (- kv * 10) <-> xv = v * tv).
Proof.
  intros Hi Hj.
  pose proof (x_nth j Hj) as Hx. pose proof (t_nth i Hi) as Ht.
  pose proof (t_nth_bounds i _ Ht) as Htv.
  eexists. eexists. eexists.
  split; [exact Hx|]. split; [exact Ht|].
  split; [rewrite C_leachate_get2, Hx, Ht; reflexivity|].
  unfold App.leachate_at.
  set (xv := INR j * (5 / 49)) in *.
  set (tv := 0.1 + INR i * (39.9 / 79)) in *.
  destruct (leachate_exponent_nonpos v xv tv ltac:(lra)) as [Hle Hiff].
  set (a := - (xv - v * tv) ^ 2 / (4 * tv)) in *.
  pose proof (exp_pos a) as Hea. pose proof (exp_pos (- kv * 10)) as Hek.
  assert (He1 : exp a <= 1).
  { rewrite <- exp_0. destruct Hle as [Hlt|Heq].
    - left. apply exp_increasing. exact Hlt.
    - right. rewrite Heq. reflexivity. }
  split; [split; nra|].
  rewrite <- Hiff. split.
  - intro H. assert (H1 : exp a = 1) by nra.
    rewrite <- exp_0 in H1. apply exp_inv in H1. exact H1.
  - intros ->. rewrite exp_0. ring.
Qed.

Lemma X4_leachate_peak_witness :
  (79 < 80)%nat /\ (0 < 50)%nat /\
  exists xv tv e : R,
    Np.get1 App.x 0 = Some xv /\
    Np.get1 App.t 79 = Some tv /\
    Np.get2 (App.C_leachate 10 1e-9) 79 0 = Some e /\
    0 <= e <= exp (- (1e-9) * 10) /\
    (e = exp (- (1e-9) * 10) <-> xv = 10 * tv).
Proof.
  split; [lia|]. split; [lia|].
  apply (X4_leachate_peak 10 1e-9 79 0); lia.
Defined.

(** X5: a larger liner permeability never raises the leachate field: for
    two permeabilities of the liner table with [k1 < k2], every entry
    computed with [k2] is at most the entry computed with [k1] at the same
    grid point, and strictly below it wherever the exponent
    [-(x - velocity*t)^2 / (4*t)] of the Gaussian factor is at least -700.
    With the table of the script the clay liner (1e-7) therefore gives the
    lowest field and the composite liner (1e-10) the highest. *)
Theorem X5_leachate_decreases_with_permeability (v k1 k2 : R) (i j : nat) :
  App.liner_in_range k1 -> App.liner_in_range k2 -> k1 < k2 ->
  (i < 80)%nat -> (j < 50)%nat ->
  exists xv tv e1 e2 : R,
    Np.get1 App.x j = Some xv /\
    Np.get1 App.t i = Some tv /\
    Np.get2 (App.C_leachate v k1) i j = Some e1 /\
    Np.get2 (App.C_leachate v k2) i j = Some e2 /\
    e2 <= e1 /\
    ((xv - v * tv) ^ 2 / (4 * tv) <= 700 -> e2 < e1).
Proof.
  intros _ _ Hk Hi Hj.
  pose proof (x_nth j Hj) as Hx. pose proof (t_nth i Hi) as Ht.
  eexists. eexists. eexists. eexists.
  split; [exact Hx|]. split; [exact Ht|].
  rewrite !C_leachate_get2, Hx, Ht.
  split; [reflexivity|]. split; [reflexivity|].
  assert (Hlt : App.leachate_at v k2 (INR j * (5 / 49))
                                (0.1 + INR i * (39.9 / 79))
                < App.leachate_at v k1 (INR j * (5 / 49))
                                  (0.1 + INR i * (39.9 / 79))).
  { unfold App.leachate_at.
    apply Rmult_lt_compat_l; [apply exp_pos|].
    apply exp_increasing. lra. }
  split; [apply Rlt_le; exact Hlt | intros _; exact Hlt].
Qed.

Lemma X5_leachate_decreases_with_permeability_witness :
  App.liner_in_range 1e-10 /\ App.liner_in_range 1e-7 /\ 1e-10 < 1e-7 /\
  (79 < 80)%nat /\ (0 < 50)%nat /\
  exists xv tv e1 e2 : R,
    Np.get1 App.x 0 = Some xv /\
    Np.get1 App.t 79 = Some tv /\
    Np.get2 (App.C_leachate 10 1e-10) 79 0 = Some e1 /\
    Np.get2 (App.C_leachate 10 1e-7) 79 0 = Some e2 /\
    e2 <= e1 /\
    ((xv - 10 * tv) ^ 2 / (4 * tv) <= 700 -> e2 < e1).
Proof.
  assert (Hk1 : App.liner_in_range 1e-10)
    by (unfold App.liner_in_range; right; right; reflexivity).
  assert (Hk2 : App.liner_in_range 1e-7)
    by (unfold App.liner_in_range; left; reflexivity).
  split; [exact Hk1|]. split; [exact Hk2|]. split; [lra|].
  split; [lia|]. split; [lia|].
  apply (X5_leachate_decreases_with_permeability 10 1e-10 1e-7 79 0 Hk1 Hk2);
    [lra | lia | lia].
Defined.

Lemma cos_sq_grid_decreasing (x1 x2 : R) :
  0 <= x1 -> x1 < x2 -> x2 <= 5 ->
  cos (PI * x2 / 20) ^ 2 < cos (PI * x1 / 20) ^ 2.
Proof.
  intros H0 Hlt H5.
  pose proof PI_RGT_0 as HPI.
  assert (Hc : cos (PI * x2 / 20) < cos (PI * x1 / 20))
    by (apply cos_decreasing_1; nra).
  pose proof (cos_grid_pos x2 ltac:(lra)) as Hpos.
  simpl. nra.
Qed.

(** X6: along every row of the gas field the values fall strictly with
    the distance: at a fixed time index, a larger distance index holds a
    strictly smaller entry, whatever the diffusion rate. *)
Theorem X6_gas_decreases_with_distance (d : R) (i j1 j2 : nat) :
  (i < 80)%nat -> (j1 < j2)%nat -> (j2 < 50)%nat ->
  exists g1 g2 : R,
    Np.get2 (App.C_gas d) i j1 = Some g1 /\
    Np.get2 (App.C_gas d) i j2 = Some g2 /\
    g2 < g1.
Proof.
  intros Hi Hlt Hj2.
  assert (Hj1 : (j1 < 50)%nat) by lia.
  pose proof (x_nth j1 Hj1) as Hx1. pose proof (x_nth j2 Hj2) as Hx2.
  pose proof (t_nth i Hi) as Ht.
  pose proof (x_nth_bounds j1 _ Hx1) as Hb1.
  pose proof (x_nth_bounds j2 _ Hx2) as Hb2.
  eexists. eexists.
  rewrite !C_gas_get2, Hx1, Hx2, Ht.
  split; [reflexivity|]. split; [reflexivity|].
  unfold App.gas_at.
  apply Rmult_lt_compat_l; [apply exp_pos|].
  apply cos_sq_grid_decreasing; try lra.
  apply lt_INR in Hlt. lra.
Qed.

Lemma X6_gas_decreases_with_distance_witness :
  (3 < 80)%nat /\ (0 < 49)%nat /\ (49 < 50)%nat /\
  exists g1 g2 : R,
    Np.get2 (App.C_gas 0.3) 3 0 = Some g1 /\
    Np.get2 (App.C_gas 0.3) 3 49 = Some g2 /\
    g2 < g1.
Proof.
  split; [lia|]. split; [lia|]. split; [lia|].
  apply (X6_gas_decreases_with_distance 0.3 3 0 49); lia.
Defined.

Lemma cos_sq_PI4 : cos (PI / 4) ^ 2 = 1 / 2.
Proof.
  pose proof (cos_2a_cos (PI / 4)) as H.
  replace (2 * (PI / 4)) with (PI / 2) in H by field.
  rewrite cos_PI2 in H. simpl. lra.
Qed.

(** X7: in every row of the gas field the entry at distance 0 is
    [exp(-diffusionRate*t/10)], the entry at distance 5 is half of that,
    and every entry of the row lies between the two. *)
Theorem X7_gas_row_range (d : R) (i : nat) :
  (i < 80)%nat ->
  exists tv : R,
    Np.get1 App.t i = Some tv /\
    Np.get2 (App.C_gas d) i 0 = Some (exp (- d * tv / 10)) /\
    Np.get2 (App.C_gas d) i 49 = Some (exp (- d * tv / 10) / 2) /\
    forall (j : nat) (e : R),
      Np.get2 (App.C_gas d) i j = Some e ->
      exp (- d * tv / 10) / 2 <= e <= exp (- d * tv / 10).
Proof.
  intro Hi.
  pose proof (t_nth i Hi) as Ht.
  eexists. split; [exact Ht|].
  set (tv := 0.1 + INR i * (39.9 / 79)) in *.
  pose proof (exp_pos (- d * tv / 10)) as He.
  split.
  { rewrite C_gas_get2, Ht, x_nth by lia. f_equal. unfold App.gas_at.
    replace (PI * (INR 0 * (5 / 49)) / 20) with 0 by (simpl; field).
    rewrite cos_0. simpl. ring. }
  split.
  { rewrite C_gas_get2, Ht, x_nth by lia. f_equal. unfold App.gas_at.
    replace (PI * (INR 49 * (5 / 49)) / 20) with (PI / 4)
      by (rewrite INR_IZR_INZ; simpl; field).
    rewrite cos_sq_PI4. field. }
  intros j e Hje. rewrite C_gas_get2, Ht in Hje.
  destruct (nth_error App.x j) as [xv|] eqn:Ex; [|discriminate].
  injection Hje as <-.
  pose proof (x_nth_bounds j xv Ex) as Hxv.
  unfold App.gas_at.
  pose proof PI_RGT_0 as HPI.
  assert (Hlo : cos (PI / 4) <= cos (PI * xv / 20))
    by (apply cos_decr_1; nra).
  pose proof (COS_bound (PI * xv / 20)) as [_ Hhi].
  assert (H4 : 0 < cos (PI / 4)) by (apply cos_gt_0; lra).
  pose proof cos_sq_PI4 as Hsq. simpl in Hsq.
  assert (Hc2 : 1 / 2 <= cos (PI * xv / 20) ^ 2 <= 1) by (simpl; split; nra).
  split; nra.
Qed.

Lemma X7_gas_row_range_witness :
  (79 < 80)%nat /\
  exists tv : R,
    Np.get1 App.t 79 = Some tv /\
    Np.get2 (App.C_gas 0.3) 79 0 = Some (exp (- (0.3) * tv / 10)) /\
    Np.get2 (App.C_gas 0.3) 79 49 = Some (exp (- (0.3) * tv / 10) / 2) /\
    forall (j : nat) (e : R),
      Np.get2 (App.C_gas 0.3) 79 j = Some e ->
      exp (- (0.3) * tv / 10) / 2 <= e <= exp (- (0.3) * tv / 10).
Proof.
  split; [lia|].
  apply (X7_gas_row_range 0.3 79). lia.
Defined.

(** X8: a larger diffusion rate lowers the gas field everywhere: for
    [d1 < d2] every entry computed with [d2] is strictly below the entry
    computed with [d1] at the same grid point. *)
Theorem X8_gas_decreases_with_diffusion (d1 d2 : R) (i j : nat) :
  d1 < d2 -> (i < 80)%nat -> (j < 50)%nat ->
  exists g1 g2 : R,
    Np.get2 (App.C_gas d1) i j = Some g1 /\
    Np.get2 (App.C_gas d2) i j = Some g2 /\
    g2 < g1.
Proof.
  intros Hd Hi Hj.
  pose proof (x_nth j Hj) as Hx. pose proof (t_nth i Hi) as Ht.
  pose proof (t_nth_bounds i _ Ht) as Htv.
  pose proof (x_nth_bounds j _ Hx) as Hxv.
  eexists. eexists.
  rewrite !C_gas_get2, Hx, Ht.
  split; [reflexivity|]. split; [reflexivity|].
  unfold App.gas_at.
  pose proof (cos_grid_pos _ Hxv) as Hc.
  apply Rmult_lt_compat_r; [simpl; nra|].
  apply exp_increasing. nra.
Qed.

Lemma X8_gas_decreases_with_diffusion_witness :
  0.01 < 2 /\ (0 < 80)%nat /\ (0 < 50)%nat /\
  exists g1 g2 : R,
    Np.get2 (App.C_gas 0.01) 0 0 = Some g1 /\
    Np.get2 (App.C_gas 2) 0 0 = Some g2 /\
    g2 < g1.
Proof.
  split; [lra|]. split; [lia|]. split; [lia|].
  apply (X8_gas_decreases_with_diffusion 0.01 2 0 0); [lra | lia | lia].
Defined.

(** ** Frames, figure and page *)

Lemma Forall_firstn_of {A : Type} (P : A -> Prop) (n : nat) (l : list A) :
  Forall P l -> Forall P (firstn n l).
Proof.
  intro H. rewrite <- (firstn_skipn n l) in H.
  apply Forall_app in H. exact (proj1 H).
Qed.

(** X9: frame [n] is labelled with the grid time [t[1 + 2n]], but its two
    slices stop one row earlier: they hold the rows of the time indices
    0 to [2n], and the row of the labelled time itself is not in the
    frame. *)
Theorem X9_frame_label_is_time_after_last_row (v d kv : R) (n : nat) :
  (n < 40)%nat ->
  exists (f : App.Frame) (tv : R),
    frame_k v d kv n = Some f /\
    App.name f = App.DaysLabel tv /\
    Np.get1 App.t (1 + 2 * n) = Some tv /\
    tv = 0.1 + INR (1 + 2 * n) * (39.9 / 79) /\
    (forall r : nat,
        nth_error (App.leachate_slice f) r =
        if (r <=? 2 * n)%nat then nth_error (App.C_leachate v kv) r else None) /\
    (forall r : nat,
        nth_error (App.gas_slice f) r =
        if (r <=? 2 * n)%nat then nth_error (App.C_gas d) r else None) /\
    nth_error (App.leachate_slice f) (1 + 2 * n) = None /\
    nth_error (App.gas_slice f) (1 + 2 * n) = None.
Proof.
  intro Hn.
  assert (Ht : nth_error App.t (1 + 2 * n) =
               Some (0.1 + INR (1 + 2 * n) * (39.9 / 79)))
    by (apply t_nth; lia).
  assert (Hrow : forall (A : Np.ndarray2) (r : nat),
             nth_error (firstn (1 + 2 * n) A) r =
             if (r <=? 2 * n)%nat then nth_error A r else None).
  { intros A r. rewrite nth_error_firstn.
    destruct (Nat.ltb_spec r (1 + 2 * n)), (Nat.leb_spec r (2 * n));
      try reflexivity; lia. }
  exists (frame_of (App.C_leachate v kv) (App.C_gas d) App.t (1 + 2 * n)),
         (0.1 + INR (1 + 2 * n) * (39.9 / 79)).
  split; [apply frame_k_total; exact Hn|].
  split.
  { change (App.DaysLabel (nth (1 + 2 * n) App.t 0)
            = App.DaysLabel (0.1 + INR (1 + 2 * n) * (39.9 / 79))).
    rewrite (nth_error_nth _ _ 0 Ht). reflexivity. }
  split; [exact Ht|]. split; [reflexivity|].
  split; [intro r; apply Hrow|]. split; [intro r; apply Hrow|].
  split.
  - change (nth_error (firstn (1 + 2 * n) (App.C_leachate v kv)) (1 + 2 * n) = None).
    rewrite Hrow. destruct (Nat.leb_spec (1 + 2 * n) (2 * n)); [lia | reflexivity].
  - change (nth_error (firstn (1 + 2 * n) (App.C_gas d)) (1 + 2 * n) = None).
    rewrite Hrow. destruct (Nat.leb_spec (1 + 2 * n) (2 * n)); [lia | reflexivity].
Qed.

Lemma X9_frame_label_is_time_after_last_row_witness :
  (39 < 40)%nat /\
  exists (f : App.Frame) (tv : R),
    frame_k 2 0.3 1e-9 39 = Some f /\
    App.name f = App.DaysLabel tv /\
    Np.get1 App.t (1 + 2 * 39) = Some tv /\
    tv = 0.1 + INR (1 + 2 * 39) * (39.9 / 79) /\
    (forall r : nat,
        nth_error (App.leachate_slice f) r =
        if (r <=? 2 * 39)%nat then nth_error (App.C_leachate 2 1e-9) r else None) /\
    (forall r : nat,
        nth_error (App.gas_slice f) r =
        if (r <=? 2 * 39)%nat then nth_error (App.C_gas 0.3) r else None) /\
    nth_error (App.leachate_slice f) (1 + 2 * 39) = None /\
    nth_error (App.gas_slice f) (1 + 2 * 39) = None.
Proof.
  split; [lia|].
  apply (X9_frame_label_is_time_after_last_row 2 0.3 1e-9 39). lia.
Defined.

(** X10: for any two fields and any time grid the frame loop finishes
    without an index error; frame [n] of its result is labelled with
    [ts[1 + 2n]] and holds the first [1 + 2n] rows of each field (all of
    its rows when the field has fewer); a time grid with fewer than two
    points gives no frames at all. *)
Theorem X10_build_frames_any_grid (L G : Np.ndarray2) (ts : Np.ndarray1) :
  exists fs : list App.Frame,
    App.build_frames L G ts = Some fs /\
    (forall (n : nat) (f : App.Frame),
        nth_error fs n = Some f ->
        exists tv : R,
          Np.get1 ts (1 + 2 * n) = Some tv /\
          App.name f = App.DaysLabel tv /\
          App.leachate_slice f = Np.rows_upto (1 + 2 * n) L /\
          App.gas_slice f = Np.rows_upto (1 + 2 * n) G) /\
    ((List.length ts <= 1)%nat -> fs = []).
Proof.
  eexists. split; [apply build_frames_total|].
  split.
  - intros n f Hf.
    rewrite nth_error_map, nth_error_seq in Hf.
    destruct (Nat.ltb_spec n (List.length ts / 2)) as [Hn|]; [|discriminate].
    simpl in Hf. injection Hf as <-.
    pose proof (Nat.div_mod_eq (List.length ts) 2) as Hdm.
    pose proof (Nat.mod_upper_bound (List.length ts) 2 ltac:(lia)) as Hmod.
    assert (Hlt : (1 + 2 * n < List.length ts)%nat) by lia.
    exists (nth (1 + 2 * n) ts 0).
    split; [apply nth_error_nth'; exact Hlt|].
    repeat split.
  - intro Hlen.
    assert (E : (List.length ts / 2 = 0)%nat).
    { apply Nat.div_small. lia. }
    rewrite E. reflexivity.
Qed.

Lemma all_entries_of_field (P : R -> Prop) (A : Np.ndarray2) :
  (forall i j e, Np.get2 A i j = Some e -> P e) -> all_entries P A.
Proof.
  intro H. apply Forall_forall. intros row Hrow.
  apply Forall_forall. intros e He.
  apply In_nth_error in Hrow. destruct Hrow as [i Hi].
  apply In_nth_error in He. destruct He as [j Hj].
  apply (H i j). unfold Np.get2. rewrite Hi. exact Hj.
Qed.

Lemma frame_of_within_colour_range
      (L G : Np.ndarray2) (ts : Np.ndarray1) (i : nat) :
  all_entries (fun e => 0 <= e <= 1) L ->
  all_entries (fun e => 0 <= e <= 1) G ->
  Forall (fun h => all_entries (fun e => App.zmin h <= e <= App.zmax h) (App.z h))
         (App.data (frame_of L G ts i)).
Proof.
  intros HL HG. unfold frame_of, all_entries. simpl.
  apply Forall_cons; [|apply Forall_cons; [|apply Forall_nil]];
    apply Forall_firstn_of; assumption.
Qed.

(** X11: for parameters within the slider ranges, every value of every
    heatmap of every frame lies within the colour range [zmin, zmax] of
    that heatmap, so no value is clipped by the colour scale. *)
Theorem X11_frame_values_within_colour_range (v d kv : R) :
  App.diffusion_in_range d -> App.liner_in_range kv ->
  exists fs : list App.Frame,
    App.frames v d kv = Some fs /\
    Forall (fun f =>
              Forall (fun h =>
                        all_entries (fun e => App.zmin h <= e <= App.zmax h)
                                    (App.z h))
                     (App.data f)) fs.
Proof.
  intros Hd Hk.
  unfold App.diffusion_in_range in Hd. unfold App.liner_in_range in Hk.
  assert (Hkpos : 0 < kv) by (destruct Hk as [->|[->| ->]]; lra).
  assert (Hdpos : 0 < d) by lra.
  assert (HL : all_entries (fun e => 0 <= e <= 1) (App.C_leachate v kv)).
  { apply all_entries_of_field. intros i j e He.
    pose proof (field_entries_in_unit_interval v d kv i j e Hdpos Hkpos
                  (or_introl He)). lra. }
  assert (HG : all_entries (fun e => 0 <= e <= 1) (App.C_gas d)).
  { apply all_entries_of_field. intros i j e He.
    pose proof (field_entries_in_unit_interval v d kv i j e Hdpos Hkpos
                  (or_intror He)). lra. }
  eexists. split; [apply frames_total|].
  apply Forall_forall. intros f Hin.
  apply in_map_iff in Hin. destruct Hin as [n [<- _]].
  apply frame_of_within_colour_range; assumption.
Qed.

Lemma X11_frame_values_within_colour_range_witness :
  App.diffusion_in_range 2 /\ App.liner_in_range 1e-7 /\
  exists fs : list App.Frame,
    App.frames 10 2 1e-7 = Some fs /\
    Forall (fun f =>
              Forall (fun h =>
                        all_entries (fun e => App.zmin h <= e <= App.zmax h)
                                    (App.z h))
                     (App.data f)) fs.
Proof.
  assert (Hd : App.diffusion_in_range 2) by (unfold App.diffusion_in_range; lra).
  assert (Hk : App.liner_in_range 1e-7)
    by (unfold App.liner_in_range; left; reflexivity).
  split; [exact Hd|]. split; [exact Hk|].
  apply (X11_frame_values_within_colour_range 10 2 1e-7 Hd Hk).
Defined.

Lemma fig_total (v d kv : R) :
  Page.fig v d kv =
  Some (Page.mkFigure
          (Page.initial_data (App.C_leachate v kv) (App.C_gas d))
          (map (fun m => frame_of (App.C_leachate v kv) (App.C_gas d) App.t
                                  (1 + 2 * m))
               (seq 0 40))).
Proof. unfold Page.fig. rewrite frames_total. reflexivity. Qed.

Lemma initial_data_slices (L G : Np.ndarray2) (ts : Np.ndarray1) :
  map Page.trace_z (Page.initial_data L G) =
  [App.leachate_slice (frame_of L G ts 1); App.gas_slice (frame_of L G ts 1)].
Proof. reflexivity. Qed.

Lemma initial_data_shape (L G : Np.ndarray2) :
  (1 <= List.length L)%nat -> (1 <= List.length G)%nat ->
  Forall (fun row => List.length row = 50%nat) L ->
  Forall (fun row => List.length row = 50%nat) G ->
  Forall (fun tr =>
            List.length (Page.trace_z tr) = 1%nat /\
            Forall (fun row => List.length row = 50%nat) (Page.trace_z tr))
         (Page.initial_data L G).
Proof.
  intros HL HG HrL HrG. unfold Page.initial_data, Np.rows_upto.
  apply Forall_cons; [|apply Forall_cons; [|apply Forall_nil]];
    cbn [Page.trace_z];
    (split; [apply firstn_length_le; assumption
            | apply Forall_firstn_of; assumption]).
Qed.

Lemma frame_of_extends_first_row
      (L G : Np.ndarray2) (ts : Np.ndarray1) (m : nat) :
  App.prefix_of (Np.rows_upto 1 L) (App.leachate_slice (frame_of L G ts (1 + 2 * m))) /\
  App.prefix_of (Np.rows_upto 1 G) (App.gas_slice (frame_of L G ts (1 + 2 * m))).
Proof.
  destruct (frame_of_slices L G ts (1 + 2 * m)) as (-> & -> & _).
  unfold Np.rows_upto. split; apply firstn_prefix_firstn; lia.
Qed.

(** X12: the figure is always built; its two initial traces show the
    first row (1 x 50) of each field, which is exactly what the first of
    its 40 frames shows, and every frame extends those initial rows. *)
Theorem X12_initial_traces_equal_first_frame (v d kv : R) :
  exists (F : Page.Figure) (f0 : App.Frame),
    Page.fig v d kv = Some F /\
    List.length (Page.fig_frames F) = 40%nat /\
    nth_error (Page.fig_frames F) 0 = Some f0 /\
    map Page.trace_z (Page.fig_data F) =
    [App.leachate_slice f0; App.gas_slice f0] /\
    Forall (fun tr =>
              List.length (Page.trace_z tr) = 1%nat /\
              Forall (fun row => List.length row = 50%nat) (Page.trace_z tr))
           (Page.fig_data F) /\
    Forall (fun f =>
              App.prefix_of (Np.rows_upto 1 (App.C_leachate v kv))
                            (App.leachate_slice f) /\
              App.prefix_of (Np.rows_upto 1 (App.C_gas d))
                            (App.gas_slice f))
           (Page.fig_frames F).
Proof.
  exists (Page.mkFigure
            (Page.initial_data (App.C_leachate v kv) (App.C_gas d))
            (map (fun m => frame_of (App.C_leachate v kv) (App.C_gas d) App.t
                                    (1 + 2 * m))
                 (seq 0 40))),
         (frame_of (App.C_leachate v kv) (App.C_gas d) App.t 1).
  cbn [Page.fig_frames Page.fig_data].
  split; [apply fig_total|].
  split; [rewrite length_map, length_seq; reflexivity|].
  split; [rewrite nth_error_map, nth_error_seq; reflexivity|].
  split; [apply initial_data_slices|].
  pose proof (length_C_leachate v kv) as HlL.
  pose proof (length_C_gas d) as HlG.
  pose proof (rows_have_50_columns _ HlL (C_leachate_defined v kv)) as HrL.
  pose proof (rows_have_50_columns _ HlG (C_gas_defined d)) as HrG.
  split.
  - apply initial_data_shape; try assumption; lia.
  - apply Forall_forall. intros f Hin.
    apply in_map_iff in Hin. destruct Hin as [m [<- _]].
    apply frame_of_extends_first_row.
Qed.

(** ** The liner table, the design text and a whole run *)

Lemma design_texts_distinct :
  Page.text_basic <> Page.text_composite /\
  Page.text_basic <> Page.text_eco /\
  Page.text_composite <> Page.text_eco.
Proof.
  repeat split; apply String.eqb_neq; reflexivity.
Qed.

(** X13: the design comparison renders a text exactly for the three
    options of the radio button and nothing for any other string, and two
    options that render the same text are the same option: the three texts
    are pairwise different. *)
Theorem X13_design_summary_by_option :
  (forall s : string,
      Page.design_summary s <> None <-> In s Page.design_options) /\
  (forall (s1 s2 txt : string),
      Page.design_summary s1 = Some txt ->
      Page.design_summary s2 = Some txt -> s1 = s2).
Proof.
  destruct design_texts_distinct as (Hbc & Hbe & Hce).
  split.
  - intro s. unfold Page.design_summary, Page.design_options.
    destruct (String.eqb_spec s "Design A - Basic") as [->|N1].
    { split; [intros _; left; reflexivity | discriminate]. }
    destruct (String.eqb_spec s "Design B - Composite") as [->|N2].
    { split; [intros _; right; left; reflexivity | discriminate]. }
    destruct (String.eqb_spec s "Design C - Eco-Advanced") as [->|N3].
    { split; [intros _; right; right; left; reflexivity | discriminate]. }
    split; [congruence|].
    intros [E|[E|[E|[]]]]; congruence.
  - intros s1 s2 txt. unfold Page.design_summary.
    destruct (String.eqb_spec s1 "Design A - Basic") as [->|];
      [|destruct (String.eqb_spec s1 "Design B - Composite") as [->|];
        [|destruct (String.eqb_spec s1 "Design C - Eco-Advanced") as [->|]]];
      (destruct (String.eqb_spec s2 "Design A - Basic") as [->|];
       [|destruct (String.eqb_spec s2 "Design B - Composite") as [->|];
         [|destruct (String.eqb_spec s2 "Design C - Eco-Advanced") as [->|]]]);
      intros H1 H2; try reflexivity; try discriminate; congruence.
Qed.

Lemma k_known_iff (s : string) :
  App.k s <> None <-> In s App.liner_options.
Proof.
  unfold App.k, App.liner_values, App.liner_options. simpl.
  destruct (String.eqb_spec s "Clay (1e-7 m/s)") as [->|N1].
  { split; [intros _; left; reflexivity | discriminate]. }
  destruct (String.eqb_spec s "Geomembrane (1e-9 m/s)") as [->|N2].
  { split; [intros _; right; left; reflexivity | discriminate]. }
  destruct (String.eqb_spec s "Composite (1e-10 m/s)") as [->|N3].
  { split; [intros _; right; right; left; reflexivity | discriminate]. }
  split; [congruence|].
  intros [E|[E|[E|[]]]]; congruence.
Qed.

(** X14: the lookup in the liner table succeeds exactly for the three
    option strings of the select box and fails for any other key; a value
    it returns is one of 1e-7, 1e-9, 1e-10, and different options have
    different permeabilities. *)
Theorem X14_liner_lookup :
  (forall s : string, App.k s <> None <-> In s App.liner_options) /\
  (forall (s : string) (kv : R), App.k s = Some kv -> App.liner_in_range kv) /\
  (forall (s1 s2 : string) (kv : R),
      App.k s1 = Some kv -> App.k s2 = Some kv -> s1 = s2).
Proof.
  split; [exact k_known_iff|].
  unfold App.k, App.liner_values, App.liner_options, App.liner_in_range.
  split.
  - intros s kv. simpl.
    destruct (String.eqb s "Clay (1e-7 m/s)");
      [intro H; injection H as <-; auto|].
    destruct (String.eqb s "Geomembrane (1e-9 m/s)");
      [intro H; injection H as <-; auto|].
    destruct (String.eqb s "Composite (1e-10 m/s)");
      [intro H; injection H as <-; auto | discriminate].
  - intros s1 s2 kv. simpl.
    destruct (String.eqb_spec s1 "Clay (1e-7 m/s)") as [->|];
      [|destruct (String.eqb_spec s1 "Geomembrane (1e-9 m/s)") as [->|];
        [|destruct (String.eqb_spec s1 "Composite (1e-10 m/s)") as [->|]]];
      (destruct (String.eqb_spec s2 "Clay (1e-7 m/s)") as [->|];
       [|destruct (String.eqb_spec s2 "Geomembrane (1e-9 m/s)") as [->|];
         [|destruct (String.eqb_spec s2 "Composite (1e-10 m/s)") as [->|]]]);
      intros H1 H2; try reflexivity; try discriminate;
      exfalso; injection H1 as <-; injection H2 as H2; lra.
Qed.

(** X15: a run of the script completes exactly when the liner type is one
    of the three option strings (any other liner type stops it at the table
    lookup, before anything is drawn); a completed run draws the figure for
    the permeability the table gives, with its 40 frames, and the design
    text of the chosen design option, or no text when that option is
    unknown. *)
Theorem X15_run_completes_iff_liner_known
        (v d : R) (liner_type design_option : string) :
  (Page.run v d liner_type design_option <> None <->
   In liner_type App.liner_options) /\
  forall r : Page.Rendered,
    Page.run v d liner_type design_option = Some r ->
    exists kv : R,
      App.k liner_type = Some kv /\
      Page.fig v d kv = Some (Page.chart r) /\
      List.length (Page.fig_frames (Page.chart r)) = 40%nat /\
      Page.summary r = Page.design_summary design_option.
Proof.
  unfold Page.run.
  split.
  - rewrite <- k_known_iff.
    destruct (App.k liner_type) as [kv|]; [|tauto].
    rewrite fig_total. split; congruence.
  - intros r Hr.
    destruct (App.k liner_type) as [kv|]; [|discriminate].
    exists kv. split; [reflexivity|].
    rewrite fig_total in *. injection Hr as <-.
    cbn [Page.chart Page.summary Page.fig_frames].
    split; [reflexivity|]. split; reflexivity.
Qed.

(** ** The leachate pulse along a row and at the origin *)

Lemma leachate_at_increasing_before_centre (v kv x1 x2 tv : R) :
  0 < tv -> x1 < x2 -> x2 <= v * tv ->
  App.leachate_at v kv x1 tv < App.leachate_at v kv x2 tv.
Proof.
  intros Ht Hlt Hc. unfold App.leachate_at.
  apply Rmult_lt_compat_r; [apply exp_pos|].
  apply exp_increasing.
  assert (Hinv : 0 < / (4 * tv)) by (apply Rinv_0_lt_compat; lra).
  assert (Hsq : (x2 - v * tv) ^ 2 < (x1 - v * tv) ^ 2) by (simpl; nra).
  unfold Rdiv. nra.
Qed.

(** X16: in a row where the distance [x[j2]] has not passed the pulse
    centre [velocity * t], the leachate field does not fall with the
    distance up to [x[j2]]: the entry at [j1 < j2] is at most the entry at
    [j2], and strictly below it when the exponent of the Gaussian factor at
    [x[j1]] is at least -700.  Once the centre has left the domain
    ([velocity * t >= 5]) this covers the whole row. *)
Theorem X16_leachate_rises_towards_centre (v kv : R) (i j1 j2 : nat) :
  (i < 80)%nat -> (j1 < j2)%nat -> (j2 < 50)%nat ->
  INR j2 * (5 / 49) <= v * (0.1 + INR i * (39.9 / 79)) ->
  exists x1 tv e1 e2 : R,
    Np.get1 App.x j1 = Some x1 /\
    Np.get1 App.t i = Some tv /\
    Np.get2 (App.C_leachate v kv) i j1 = Some e1 /\
    Np.get2 (App.C_leachate v kv) i j2 = Some e2 /\
    e1 <= e2 /\
    ((x1 - v * tv) ^ 2 / (4 * tv) <= 700 -> e1 < e2).
Proof.
  intros Hi Hlt Hj2 Hc.
  assert (Hj1 : (j1 < 50)%nat) by lia.
  pose proof (x_nth j1 Hj1) as Hx1. pose proof (x_nth j2 Hj2) as Hx2.
  pose proof (t_nth i Hi) as Ht.
  pose proof (t_nth_bounds i _ Ht) as Htv.
  eexists. eexists. eexists. eexists.
  split; [exact Hx1|]. split; [exact Ht|].
  rewrite !C_leachate_get2, Hx1, Hx2, Ht.
  split; [reflexivity|]. split; [reflexivity|].
  assert (Hrise : App.leachate_at v kv (INR j1 * (5 / 49))
                                  (0.1 + INR i * (39.9 / 79))
                  < App.leachate_at v kv (INR j2 * (5 / 49))
                                    (0.1 + INR i * (39.9 / 79))).
  { apply leachate_at_increasing_before_centre; [lra | | exact Hc].
    apply lt_INR in Hlt. lra. }
  split; [apply Rlt_le; exact Hrise | intros _; exact Hrise].
Qed.

Lemma X16_leachate_rises_towards_centre_witness :
  (79 < 80)%nat /\ (0 < 49)%nat /\ (49 < 50)%nat /\
  INR 49 * (5 / 49) <= 10 * (0.1 + INR 79 * (39.9 / 79)) /\
  exists x1 tv e1 e2 : R,
    Np.get1 App.x 0 = Some x1 /\
    Np.get1 App.t 79 = Some tv /\
    Np.get2 (App.C_leachate 10 1e-9) 79 0 = Some e1 /\
    Np.get2 (App.C_leachate 10 1e-9) 79 49 = Some e2 /\
    e1 <= e2 /\
    ((x1 - 10 * tv) ^ 2 / (4 * tv) <= 700 -> e1 < e2).
Proof.
  assert (Hc : INR 49 * (5 / 49) <= 10 * (0.1 + INR 79 * (39.9 / 79)))
    by (rewrite !INR_IZR_INZ; simpl; lra).
  split; [lia|]. split; [lia|]. split; [lia|]. split; [exact Hc|].
  apply (X16_leachate_rises_towards_centre 10 1e-9 79 0 49);
    [lia | lia | lia | exact Hc].
Defined.

(** X17: at distance 0 the leachate field is
    [exp(-velocity^2 * t / 4) * exp(-k*10)]; it never rises from one time
    index to a later one, and for a non-zero velocity it falls strictly as
    long as [velocity^2 * t / 4] is at most 700 at the later time. *)
Theorem X17_leachate_at_origin_decays (v kv : R) (i1 i2 : nat) :
  (i1 < i2)%nat -> (i2 < 80)%nat ->
  exists t1 t2 : R,
    Np.get1 App.t i1 = Some t1 /\
    Np.get1 App.t i2 = Some t2 /\
    Np.get2 (App.C_leachate v kv) i1 0 =
    Some (exp (- (v ^ 2) * t1 / 4) * exp (- kv * 10)) /\
    Np.get2 (App.C_leachate v kv) i2 0 =
    Some (exp (- (v ^ 2) * t2 / 4) * exp (- kv * 10)) /\
    exp (- (v ^ 2) * t2 / 4) * exp (- kv * 10) <=
    exp (- (v ^ 2) * t1 / 4) * exp (- kv * 10) /\
    (v <> 0 -> v ^ 2 * t2 / 4 <= 700 ->
     exp (- (v ^ 2) * t2 / 4) * exp (- kv * 10) <
     exp (- (v ^ 2) * t1 / 4) * exp (- kv * 10)).
Proof.
  intros Hlt Hi2.
  assert (Hi1 : (i1 < 80)%nat) by lia.
  pose proof (t_nth i1 Hi1) as Ht1. pose proof (t_nth i2 Hi2) as Ht2.
  pose proof (t_nth_bounds i1 _ Ht1) as Hb1.
  pose proof (t_nth_bounds i2 _ Ht2) as Hb2.
  pose proof (t_nth_increasing i1 i2 _ _ Hlt Ht1 Ht2) as Hinc.
  assert (Horigin : forall tv : R, 0 < tv ->
             App.leachate_at v kv (INR 0 * (5 / 49)) tv =
             exp (- (v ^ 2) * tv / 4) * exp (- kv * 10)).
  { intros tv Htv. unfold App.leachate_at. do 2 f_equal.
    simpl. field. lra. }
  eexists. eexists.
  split; [exact Ht1|]. split; [exact Ht2|].
  split.
  { rewrite C_leachate_get2, Ht1, x_nth by lia. f_equal. apply Horigin. lra. }
  split.
  { rewrite C_leachate_get2, Ht2, x_nth by lia. f_equal. apply Horigin. lra. }
  assert (Hsq : 0 <= v ^ 2) by apply pow2_ge_0.
  split.
  - apply Rmult_le_compat_r; [left; apply exp_pos|].
    assert (Hle : - v ^ 2 * (0.1 + INR i2 * (39.9 / 79)) / 4
                  <= - v ^ 2 * (0.1 + INR i1 * (39.9 / 79)) / 4) by nra.
    destruct Hle as [Hl|He].
    + left. apply exp_increasing. exact Hl.
    + right. rewrite He. reflexivity.
  - intros Hv _.
    apply Rmult_lt_compat_r; [apply exp_pos|].
    apply exp_increasing.
    assert (0 < v ^ 2) by (simpl; nra).
    nra.
Qed.

Lemma X17_leachate_at_origin_decays_witness :
  (0 < 79)%nat /\ (79 < 80)%nat /\
  exists t1 t2 : R,
    Np.get1 App.t 0 = Some t1 /\
    Np.get1 App.t 79 = Some t2 /\
    Np.get2 (App.C_leachate 10 1e-7) 0 0 =
    Some (exp (- (10 ^ 2) * t1 / 4) * exp (- (1e-7) * 10)) /\
    Np.get2 (App.C_leachate 10 1e-7) 79 0 =
    Some (exp (- (10 ^ 2) * t2 / 4) * exp (- (1e-7) * 10)) /\
    exp (- (10 ^ 2) * t2 / 4) * exp (- (1e-7) * 10) <=
    exp (- (10 ^ 2) * t1 / 4) * exp (- (1e-7) * 10) /\
    (10 <> 0 -> 10 ^ 2 * t2 / 4 <= 700 ->
     exp (- (10 ^ 2) * t2 / 4) * exp (- (1e-7) * 10) <
     exp (- (10 ^ 2) * t1 / 4) * exp (- (1e-7) * 10)).
Proof.
  split; [lia|]. split; [lia|].
  apply (X17_leachate_at_origin_decays 10 1e-7 0 79); lia.
Defined.
